(** * Conversation-state engine of the chat page (src/app/page.tsx)

    A shallow embedding of the [HomePage] component's state logic: the two
    storage effects, [createNewConversation], [deleteConversation], the
    asynchronous [sendMessage] (split at its single [await] point), the
    response normalisation it performs, and the [disabled] gating of the
    controls that invoke it.

    Strings are [string]; one character stands for one UTF-16 code unit.
    React state is a record that the handlers transform; the closure
    variables a handler reads are the fields of the state it is invoked on
    (the last committed render). *)

From Stdlib Require Import List String Ascii Bool ZArith Lia Floats.
From Stdlib Require Import DecimalString.
Import ListNotations.
Local Open Scope string_scope.

Set Implicit Arguments.
Set Warnings "-register-all".

(** ** JavaScript strings *)

Module JsString.

Definition newline : string := String (ascii_of_nat 10) "".

(** White space recognised by [String.prototype.trim], within the
    code units 0..255: TAB, LF, VT, FF, CR, SPACE and NBSP. *)
Definition is_ws (c : ascii) : bool :=
  let n := nat_of_ascii c in
  (((9 <=? n)%nat && (n <=? 13)%nat) || (n =? 32)%nat || (n =? 160)%nat)%bool.

Fixpoint trimStart (s : string) : string :=
  match s with
  | EmptyString => EmptyString
  | String c s' => if is_ws c then trimStart s' else s
  end.

(** [trimEnd] drops the trailing white space: a character is kept when
    it is not white space or something non-blank follows it. *)
Fixpoint trimEnd (s : string) : string :=
  match s with
  | EmptyString => EmptyString
  | String c s' =>
      match trimEnd s' with
      | EmptyString => if is_ws c then EmptyString else String c EmptyString
      | r => String c r
      end
  end.

Definition trim (s : string) : string := trimEnd (trimStart s).

(** Truthiness of a string: [""] is the only falsy one. *)
Definition truthy (s : string) : bool :=
  match s with EmptyString => false | _ => true end.

(** [s.slice(0, n)]. *)
Definition slice0 (n : nat) (s : string) : string := substring 0 n s.

(** [Array.prototype.join] on an array of strings. *)
Definition join (sep : string) (l : list string) : string := concat sep l.

(** [Number.prototype.toString] on an integer time value. *)
Definition of_Z (z : Z) : string := NilZero.string_of_int (Z.to_int z).

End JsString.

(** ** JavaScript arrays *)

Module JsArray.

(** [a.slice(start)]: a negative [start] counts from the end, and the
    resulting index is clamped to [0 .. a.length]. *)
Definition slice (A : Type) (start : Z) (a : list A) : list A :=
  let len := Z.of_nat (List.length a) in
  let k := if (start <? 0)%Z then Z.max (len + start) 0 else Z.min start len in
  skipn (Z.to_nat k) a.

End JsArray.

(** ** Values produced by [response.json()] *)

Inductive JSValue : Type :=
| JUndefined
| JNull
| JBool (b : bool)
| JNum (f : float)
| JStr (s : string)
| JArr (items : list JSValue)
| JObj (fields : list (string * JSValue)).

(** Result of an expression that may throw. *)
Inductive outcome (A : Type) : Type :=
| Ok (a : A)
| Throw (e : string).
Arguments Throw {A} e.

Module Js.

(** ToBoolean. *)
Definition truthy (v : JSValue) : bool :=
  match v with
  | JUndefined | JNull => false
  | JBool b => b
  | JNum f => negb (PrimFloat.is_zero f || PrimFloat.is_nan f)
  | JStr s => JsString.truthy s
  | JArr _ | JObj _ => true
  end.

Fixpoint lookup (k : string) (fields : list (string * JSValue)) : JSValue :=
  match fields with
  | [] => JUndefined
  | (k', v) :: rest => if String.eqb k k' then v else lookup k rest
  end.

(** [v.k] for one of the property names the page reads ([success],
    [response], [raw_response], [result], [answer]): an own property of
    an object; [undefined] on arrays and primitives, none of whose
    prototypes defines these names; a TypeError on [null] and
    [undefined]. *)
Definition get (v : JSValue) (k : string) : outcome JSValue :=
  match v with
  | JUndefined | JNull => Throw "TypeError"
  | JObj fields => Ok (lookup k fields)
  | _ => Ok JUndefined
  end.

(** [v?.k]. *)
Definition get_opt (v : JSValue) (k : string) : JSValue :=
  match v with
  | JObj fields => lookup k fields
  | _ => JUndefined
  end.

(** [a || b]. *)
Definition or (a b : JSValue) : JSValue := if truthy a then a else b.

(** [typeof v === 'string']. *)
Definition is_string (v : JSValue) : bool :=
  match v with JStr _ => true | _ => false end.

End Js.

Declare Scope js_scope.
Delimit Scope js_scope with js.
Infix "||" := Js.or (at level 50, left associativity) : js_scope.

(** ** Response normalisation (sendMessage, lines 136-148) *)

Definition bind {A B : Type} (x : outcome A) (k : A -> outcome B) : outcome B :=
  match x with
  | Ok a => k a
  | Throw e => Throw e
  end.

Notation "x <- e ;; k" := (bind e (fun x => k))
  (at level 61, e at next level, right associativity).

(** The value assigned to [agentResponseText] from the parsed body
    [data], or the exception raised while reading it. *)
Definition normalize (data : JSValue) : outcome JSValue :=
  success <- Js.get data "success" ;;
  if Js.truthy success then
    response <- Js.get data "response" ;;
    raw_response <- Js.get data "raw_response" ;;
    Ok (Js.get_opt response "result"
        || Js.get_opt response "answer"
        || Js.get_opt response "response"
        || (if Js.is_string response then response else JNull)
        || raw_response
        || JStr "No response received")%js
  else
    raw_response <- Js.get data "raw_response" ;;
    Ok (raw_response || JStr "Error processing request")%js.

(** ** Data model (interfaces [Message] and [Conversation]) *)

Inductive Sender : Type := user | agent.

Module Message.
Record t : Type := mk {
  id : string;
  text : string;
  sender : Sender;
  timestamp : string
}.
End Message.

Module Conversation.
Record t : Type := mk {
  id : string;
  title : string;
  messages : list Message.t;
  createdAt : string;
  lastMessage : string
}.
End Conversation.

Definition AGENT_ID : string := "6939a09c5a8dda74db9ccca4".

Definition STARTER_PROMPTS : list string :=
  [ "What is machine learning?";
    "How can I improve my productivity?";
    "Explain quantum computing in simple terms";
    "What are best practices for web development?" ].

(** ** Environment *)

(** What [Date.now()] and [new Date().toISOString()] return when a handler
    runs. *)
Record Clock : Type := {
  now : Z;
  iso : string
}.

(** The text stored under the key [chatbot_conversations], represented by
    what [JSON.parse] makes of it: the serialisation of an array of
    conversations, or a text ([raw]) that [JSON.parse] rejects.  A text
    that [JSON.parse] accepts but that does not hold an array of complete
    conversation objects ("null", "5", an array with other entries) has
    no representation here: nothing is stated about a start on such a
    text. *)
Inductive Blob : Type :=
| Serialized (cs : list Conversation.t)
| Malformed (raw : string).

(** Truthiness of the stored text: a serialised array is never empty. *)
Definition blob_truthy (b : Blob) : bool :=
  match b with
  | Serialized _ => true
  | Malformed raw => JsString.truthy raw
  end.

Definition JSON_parse (b : Blob) : outcome (list Conversation.t) :=
  match b with
  | Serialized cs => Ok cs
  | Malformed _ => Throw "SyntaxError"
  end.

Definition JSON_stringify (cs : list Conversation.t) : Blob := Serialized cs.

(** ** Component state

    The [useState] cells the handlers touch, together with the
    [localStorage] item the effects read and write. *)
Record State : Type := {
  conversations : list Conversation.t;
  currentConversationId : option string;
  inputValue : string;
  isLoading : bool;
  localStorage : option Blob
}.

Definition setConversations (cs : list Conversation.t) (st : State) : State :=
  {| conversations := cs;
     currentConversationId := currentConversationId st;
     inputValue := inputValue st;
     isLoading := isLoading st;
     localStorage := localStorage st |}.

Definition setCurrentConversationId (i : option string) (st : State) : State :=
  {| conversations := conversations st;
     currentConversationId := i;
     inputValue := inputValue st;
     isLoading := isLoading st;
     localStorage := localStorage st |}.

Definition setInputValue (v : string) (st : State) : State :=
  {| conversations := conversations st;
     currentConversationId := currentConversationId st;
     inputValue := v;
     isLoading := isLoading st;
     localStorage := localStorage st |}.

Definition setIsLoading (b : bool) (st : State) : State :=
  {| conversations := conversations st;
     currentConversationId := currentConversationId st;
     inputValue := inputValue st;
     isLoading := b;
     localStorage := localStorage st |}.

Definition setItem (b : Blob) (st : State) : State :=
  {| conversations := conversations st;
     currentConversationId := currentConversationId st;
     inputValue := inputValue st;
     isLoading := isLoading st;
     localStorage := Some b |}.

(** The values of the [useState] initialisers, over a given storage. *)
Definition initial (stored : option Blob) : State :=
  {| conversations := [];
     currentConversationId := None;
     inputValue := "";
     isLoading := false;
     localStorage := stored |}.

(** ** Storage effects (lines 44-60) *)

(** The load effect, run once after the first render. *)
Definition loadEffect (st : State) : outcome State :=
  match localStorage st with
  | None => Ok st
  | Some saved =>
      if blob_truthy saved then
        parsed <- JSON_parse saved ;;
        let st1 := setConversations parsed st in
        Ok match parsed with
           | [] => st1
           | c :: _ => setCurrentConversationId (Some (Conversation.id c)) st1
           end
      else Ok st
  end.

(** The save effect, run after every render in which [conversations]
    changed. *)
Definition saveEffect (st : State) : State :=
  if (0 <? List.length (conversations st))%nat
  then setItem (JSON_stringify (conversations st)) st
  else st.

(** Mounting the page: both effects run against the initial render (the
    save effect sees the initial, empty array); the state updates of the
    load effect then cause a second render, after which the save effect
    runs again. *)
Definition mount (stored : option Blob) : outcome State :=
  loaded <- loadEffect (initial stored) ;;
  let st0 := saveEffect (initial stored) in
  Ok (saveEffect (setCurrentConversationId (currentConversationId loaded)
                    (setConversations (conversations loaded) st0))).

(** [conversations.find((c) => c.id === currentConversationId)] *)
Definition currentConversation (st : State) : option Conversation.t :=
  match currentConversationId st with
  | None => None
  | Some i => find (fun c => String.eqb (Conversation.id c) i) (conversations st)
  end.

(** ** Handlers *)

Definition createNewConversation (clk : Clock) (st : State) : State :=
  let newConversation :=
    {| Conversation.id := JsString.of_Z (now clk);
       Conversation.title := "New Conversation";
       Conversation.messages := [];
       Conversation.createdAt := iso clk;
       Conversation.lastMessage := "" |} in
  setInputValue ""
    (setCurrentConversationId (Some (Conversation.id newConversation))
       (setConversations (newConversation :: conversations st) st)).

Definition deleteConversation (i : string) (st : State) : State :=
  let updated :=
    filter (fun c => negb (String.eqb (Conversation.id c) i)) (conversations st) in
  let st1 := setConversations updated st in
  match currentConversationId st with
  | Some cur =>
      if String.eqb cur i
      then setCurrentConversationId
             match updated with
             | [] => None
             | c :: _ => Some (Conversation.id c)
             end st1
      else st1
  | None => st1
  end.

(** ** sendMessage (lines 82-195)

    The function is asynchronous with one suspension point, the [await]
    on [fetch] (followed by the [await] on [response.json()]).
    [sendMessage] below is the part that runs synchronously when the
    handler is called; it yields the request that was issued together
    with the variables the rest of the function has captured.
    [sendMessage_resume] is the rest, run when the awaited promises
    settle, on whatever the state is by then. *)

Record Request : Type := {
  message : string;
  agent_id : string;
  user_id : string;
  session_id : string
}.

(** An in-flight send: the request and the captured closure variable
    [currentConversationId]. *)
Record Pending : Type := {
  request : Request;
  captured_id : string
}.

(** The [prev.map] callback of lines 96-107. *)
Definition appendUser (cur : string) (userMessage : Message.t) (messageText : string)
    (conv : Conversation.t) : Conversation.t :=
  if String.eqb (Conversation.id conv) cur then
    {| Conversation.id := Conversation.id conv;
       Conversation.title :=
         if (List.length (Conversation.messages conv) =? 0)%nat
         then JsString.slice0 50 messageText
         else Conversation.title conv;
       Conversation.messages := Conversation.messages conv ++ [userMessage];
       Conversation.createdAt := Conversation.createdAt conv;
       Conversation.lastMessage := messageText |}
  else conv.

(** The [prev.map] callbacks of lines 159-168 and 181-190: they differ in
    the appended message and in the value given to [lastMessage]. *)
Definition appendFollowUp (cur : string) (m : Message.t) (last : string)
    (conv : Conversation.t) : Conversation.t :=
  if String.eqb (Conversation.id conv) cur then
    {| Conversation.id := Conversation.id conv;
       Conversation.title := Conversation.title conv;
       Conversation.messages := Conversation.messages conv ++ [m];
       Conversation.createdAt := Conversation.createdAt conv;
       Conversation.lastMessage := last |}
  else conv.

Definition renderLine (msg : Message.t) : string :=
  (match Message.sender msg with user => "User" | agent => "Assistant" end)
  ++ ": " ++ Message.text msg.

(** Lines 113-119, on the conversation the render had found. *)
Definition fullMessage (current : option Conversation.t) (messageText : string) : string :=
  let conversationHistory :=
    match current with
    | Some c => Conversation.messages c
    | None => []
    end in
  let context :=
    JsString.join JsString.newline
      (map renderLine (JsArray.slice (-10) conversationHistory)) in
  if JsString.truthy context
  then context ++ JsString.newline ++ "User: " ++ messageText
  else messageText.

Definition sendMessage (clk : Clock) (messageText : string) (st : State)
  : State * option Pending :=
  if negb (JsString.truthy (JsString.trim messageText)) then (st, None) else
  match currentConversationId st with
  | None => (st, None)
  | Some cur =>
      if negb (JsString.truthy cur) then (st, None) else
      let userMessage :=
        {| Message.id := JsString.of_Z (now clk);
           Message.text := messageText;
           Message.sender := user;
           Message.timestamp := iso clk |} in
      let st1 := setIsLoading true st in
      let st2 :=
        setConversations
          (map (appendUser cur userMessage messageText) (conversations st1)) st1 in
      let st3 := setInputValue "" st2 in
      (st3,
       Some {| request :=
                 {| message := fullMessage (currentConversation st) messageText;
                    agent_id := AGENT_ID;
                    user_id := "chatbot-user";
                    session_id := cur |};
               captured_id := cur |})
  end.

(** How the [try] block ends: with a text assigned to
    [agentResponseText], or with an exception. *)
Inductive Reply : Type :=
| Answered (agentResponseText : string)
| Failed.

Definition APOLOGY : string :=
  "Sorry, an error occurred while processing your message. Please try again.".

Definition sendMessage_resume (clk : Clock) (p : Pending) (r : Reply) (st : State)
  : State :=
  let cur := captured_id p in
  let st1 :=
    match r with
    | Answered agentResponseText =>
        let agentMessage :=
          {| Message.id := JsString.of_Z (now clk + 1);
             Message.text := agentResponseText;
             Message.sender := agent;
             Message.timestamp := iso clk |} in
        setConversations
          (map (appendFollowUp cur agentMessage agentResponseText) (conversations st)) st
    | Failed =>
        let errorMessage :=
          {| Message.id := JsString.of_Z (now clk + 2);
             Message.text := APOLOGY;
             Message.sender := agent;
             Message.timestamp := iso clk |} in
        setConversations
          (map (appendFollowUp cur errorMessage "Error") (conversations st)) st
    end in
  setIsLoading false st1.

(** What the awaited calls deliver. *)
Inductive FetchResult : Type :=
| NetworkError                 (* [fetch] rejects *)
| BodyNotJson                  (* [response.json()] rejects *)
| Body (data : JSValue).       (* [response.json()] resolves with [data] *)

(** Lines 122-148 as a whole.  [agentResponseText] is declared a string;
    a normalised value that is not one lies outside the typed model. *)
Definition try_block (f : FetchResult) : option Reply :=
  match f with
  | NetworkError | BodyNotJson => Some Failed
  | Body data =>
      match normalize data with
      | Throw _ => Some Failed
      | Ok (JStr s) => Some (Answered s)
      | Ok _ => None
      end
  end.

(** ** Call sites of sendMessage (lines 197-211 and the JSX) *)

Definition handleSubmit (clk : Clock) (st : State) : State * option Pending :=
  if JsString.truthy (JsString.trim (inputValue st))
  then sendMessage clk (inputValue st) st
  else (st, None).

(** [handleKeyDown]; the boolean tells whether [preventDefault] was
    called. *)
Definition handleKeyDown (clk : Clock) (key : string) (shiftKey : bool) (st : State)
  : State * option Pending * bool :=
  if (String.eqb key "Enter" && negb shiftKey)%bool then
    (if JsString.truthy (JsString.trim (inputValue st))
     then sendMessage clk (inputValue st) st
     else (st, None), true)
  else (st, None, false).

Inductive Control : Type :=
| MessageInput
| SubmitButton
| StarterPrompt (idx : nat).

(** The [disabled] attribute of each control. *)
Definition disabled (c : Control) (st : State) : bool :=
  match c with
  | MessageInput => isLoading st
  | SubmitButton => (negb (JsString.truthy (JsString.trim (inputValue st))) || isLoading st)%bool
  | StarterPrompt _ => isLoading st
  end.

(** Whether the control is in the rendered tree: the input area needs a
    truthy [currentConversationId]; the starter prompts need the current
    conversation to exist and to hold no message. *)
Definition rendered (c : Control) (st : State) : bool :=
  let selected :=
    match currentConversationId st with
    | Some i => JsString.truthy i
    | None => false
    end in
  match c with
  | MessageInput | SubmitButton => selected
  | StarterPrompt idx =>
      (selected &&
       match currentConversation st with
       | Some c => (List.length (Conversation.messages c) =? 0)%nat
       | None => false
       end &&
       (idx <? List.length STARTER_PROMPTS)%nat)%bool
  end.

Definition operable (c : Control) (st : State) : bool :=
  (rendered c st && negb (disabled c st))%bool.

Inductive UIEvent : Type :=
| ClickSubmit
| KeyDown (key : string) (shiftKey : bool)
| ClickStarter (idx : nat).

(** What the browser does with a user gesture: a control that is absent
    or disabled receives no event; an Enter key press that the handler
    did not cancel submits the form through its submit button. *)
Definition dispatch (clk : Clock) (ev : UIEvent) (st : State) : State * option Pending :=
  match ev with
  | ClickSubmit =>
      if operable SubmitButton st then handleSubmit clk st else (st, None)
  | KeyDown key shiftKey =>
      if operable MessageInput st then
        match handleKeyDown clk key shiftKey st with
        | (r, true) => r
        | (r, false) =>
            if (String.eqb key "Enter" && operable SubmitButton st)%bool
            then handleSubmit clk st
            else r
        end
      else (st, None)
  | ClickStarter idx =>
      if operable (StarterPrompt idx) st
      then sendMessage clk (nth idx STARTER_PROMPTS "") st
      else (st, None)
  end.

(** ** The page as a transition system

    The state of the component and the sends that are awaiting their
    reply.  Every handler that calls [setConversations] is followed by a
    render and by the save effect. *)

Record Machine : Type := {
  page : State;
  inflight : list Pending
}.

Inductive Event : Type :=
| NewChat (clk : Clock)                        (* a "New Chat" button *)
| SelectConversation (i : string)              (* click on a list entry *)
| TypeInput (v : string)                       (* typing into the message input *)
| DeleteConversation (i : string)              (* its delete button *)
| Gesture (clk : Clock) (ev : UIEvent)         (* sendMessage through a control *)
| SendMessage (clk : Clock) (messageText : string) (* sendMessage called directly *)
| Settle (n : nat) (clk : Clock) (r : Reply).  (* the n-th pending send resumes *)

Fixpoint remove_nth {A : Type} (n : nat) (l : list A) : list A :=
  match l, n with
  | [], _ => []
  | _ :: tl, O => tl
  | x :: tl, S n' => x :: remove_nth n' tl
  end.

Definition started (m : Machine) (r : State * option Pending) : Machine :=
  match r with
  | (st, Some p) => {| page := saveEffect st; inflight := inflight m ++ [p] |}
  | (_, None) => m
  end.

Definition step (e : Event) (m : Machine) : Machine :=
  match e with
  | NewChat clk =>
      {| page := saveEffect (createNewConversation clk (page m));
         inflight := inflight m |}
  | SelectConversation i =>
      if existsb (fun c => String.eqb (Conversation.id c) i) (conversations (page m))
      then {| page := setCurrentConversationId (Some i) (page m);
              inflight := inflight m |}
      else m
  | TypeInput v =>
      if operable MessageInput (page m)
      then {| page := setInputValue v (page m); inflight := inflight m |}
      else m
  | DeleteConversation i =>
      {| page := saveEffect (deleteConversation i (page m));
         inflight := inflight m |}
  | Gesture clk ev => started m (dispatch clk ev (page m))
  | SendMessage clk messageText => started m (sendMessage clk messageText (page m))
  | Settle n clk r =>
      match nth_error (inflight m) n with
      | Some p =>
          {| page := saveEffect (sendMessage_resume clk p r (page m));
             inflight := remove_nth n (inflight m) |}
      | None => m
      end
  end.

Fixpoint run (es : list Event) (m : Machine) : Machine :=
  match es with
  | [] => m
  | e :: es' => run es' (step e m)
  end.

(** The machine once the page has mounted. *)
Definition boot (stored : option Blob) : outcome Machine :=
  st <- mount stored ;;
  Ok {| page := st; inflight := [] |}.

(** ** Search filter (lines 213-215) *)

(** [String.prototype.toLowerCase] on one code unit below 256: the
    letters A-Z and the Latin-1 capitals U+00C0-U+00DE, the sign U+00D7
    apart, move up by 32; every other unit stays.  This covers the
    strings of the embedding only, whose units are all below 256; on
    other strings [toLowerCase] also has a rule that depends on the
    neighbouring characters (the final sigma), and no property below
    relies on how lower case is computed. *)
Definition toLowerCase_unit (c : ascii) : ascii :=
  let n := nat_of_ascii c in
  if (((65 <=? n)%nat && (n <=? 90)%nat)
      || ((192 <=? n)%nat && (n <=? 222)%nat && negb (n =? 215)%nat))%bool
  then ascii_of_nat (n + 32)
  else c.

Fixpoint toLowerCase (s : string) : string :=
  match s with
  | EmptyString => EmptyString
  | String c s' => String (toLowerCase_unit c) (toLowerCase s')
  end.

(** [s.includes(sub)]: [sub] starts at some position of [s]. *)
Fixpoint includes (s sub : string) : bool :=
  (prefix sub s
   || match s with
      | EmptyString => false
      | String _ s' => includes s' sub
      end)%bool.

(** The list shown in the sidebar for the text of the search box. *)
Definition filteredConversations (searchQuery : string) (cs : list Conversation.t)
  : list Conversation.t :=
  filter (fun conv => includes (toLowerCase (Conversation.title conv))
                               (toLowerCase searchQuery)) cs.

(** ** formatTime (lines 225-239) *)

(** What [new Date(timestamp)] yields: a time value in milliseconds, or
    an invalid date, whose time value is NaN. *)
Inductive JsDate : Type :=
| ValidDate (ms : Z)
| InvalidDate.

(** [formatTime], over the parsed date and the time value of
    [new Date()].  The differences of two time values are integers that
    doubles hold exactly, and [Math.floor] of their quotient by these
    divisors is the integer quotient rounded down.  With an invalid date
    every comparison is false and [toLocaleDateString] yields
    "Invalid Date"; on a valid date its result depends on the locale and
    is taken as given. *)
Definition formatTime (toLocaleDateString : Z -> string) (date : JsDate) (now_ms : Z)
  : string :=
  match date with
  | InvalidDate => "Invalid Date"
  | ValidDate date_ms =>
      let diffMs := (now_ms - date_ms)%Z in
      let diffMins := (diffMs / 60000)%Z in
      let diffHours := (diffMs / 3600000)%Z in
      let diffDays := (diffMs / 86400000)%Z in
      if (diffMins <? 1)%Z then "just now"
      else if (diffMins <? 60)%Z then JsString.of_Z diffMins ++ "m ago"
      else if (diffHours <? 24)%Z then JsString.of_Z diffHours ++ "h ago"
      else if (diffDays <? 7)%Z then JsString.of_Z diffDays ++ "d ago"
      else toLocaleDateString date_ms
  end.

(** * Vocabulary of the properties *)

(** ** Normalisation *)

(** "First non-empty value wins": the first candidate that is not empty,
    where empty means what [||] skips (absent, [null], [false], zero and
    the empty string), else the fallback literal. *)
Definition first_nonempty (candidates : list JSValue) (fallback : string) : JSValue :=
  match find Js.truthy candidates with
  | Some v => v
  | None => JStr fallback
  end.

(** The candidates of a successful response, in the order of the
    precedence list. *)
Definition success_candidates (data : list (string * JSValue)) : list JSValue :=
  let response := Js.lookup "response" data in
  [ Js.get_opt response "result";
    Js.get_opt response "answer";
    Js.get_opt response "response";
    match response with JStr s => JStr s | _ => JUndefined end;
    Js.lookup "raw_response" data ].

(** The one candidate of an unsuccessful response. *)
Definition failure_candidates (data : list (string * JSValue)) : list JSValue :=
  [ Js.lookup "raw_response" data ].

(** ** Composer *)

(** The trailing [n] entries of a list. *)
Definition trailing {A : Type} (n : nat) (l : list A) : list A :=
  rev (firstn n (rev l)).

(** The composer as the specification words it: the trailing ten
    messages, one line each behind its role, joined by newlines and
    followed by the new text as a last "User" line; the new text alone
    when there is no history. *)
Definition buildContext (history : list Message.t) (newText : string) : string :=
  match history with
  | [] => newText
  | _ :: _ =>
      JsString.join JsString.newline
        (map (fun m => match Message.sender m with
                       | user => "User: " ++ Message.text m
                       | agent => "Assistant: " ++ Message.text m
                       end)
             (trailing 10 history))
      ++ JsString.newline ++ "User: " ++ newText
  end.

(** The history the page hands to the composer. *)
Definition historyOf (st : State) : list Message.t :=
  match currentConversation st with
  | Some c => Conversation.messages c
  | None => []
  end.

(** ** Messages of a send *)

(** The [userMessage] object of line 88. *)
Definition userMessageOf (clk : Clock) (messageText : string) : Message.t :=
  {| Message.id := JsString.of_Z (now clk);
     Message.text := messageText;
     Message.sender := user;
     Message.timestamp := iso clk |}.

(** The [agentMessage] or [errorMessage] object a reply leads to. *)
Definition followUpOf (clk : Clock) (r : Reply) : Message.t :=
  match r with
  | Answered agentResponseText =>
      {| Message.id := JsString.of_Z (now clk + 1);
         Message.text := agentResponseText;
         Message.sender := agent;
         Message.timestamp := iso clk |}
  | Failed =>
      {| Message.id := JsString.of_Z (now clk + 2);
         Message.text := APOLOGY;
         Message.sender := agent;
         Message.timestamp := iso clk |}
  end.

(** The value [lastMessage] receives with it. *)
Definition previewOf (r : Reply) : string :=
  match r with
  | Answered agentResponseText => agentResponseText
  | Failed => "Error"
  end.

(** Number of messages held by a collection. *)
Definition messageCount (cs : list Conversation.t) : nat :=
  list_sum (map (fun c => List.length (Conversation.messages c)) cs).

(** How many conversations of the collection carry the id [i]. *)
Definition carriers (i : string) (cs : list Conversation.t) : nat :=
  List.length (filter (fun c => String.eqb (Conversation.id c) i) cs).

(** ** Preview *)

(** The text of the final message, [""] when there is none. *)
Definition finalText (c : Conversation.t) : string :=
  last (map Message.text (Conversation.messages c)) "".

(** [lastMessage] mirrors the transcript: it is the text of the final
    message, or the empty string when there is none. *)
Definition mirror (c : Conversation.t) : Prop :=
  Conversation.lastMessage c
  = last (map Message.text (Conversation.messages c)) "".

(** The preview of a conversation is in one of its two regular shapes:
    the mirror of the transcript, or the error marker over the apology. *)
Definition previewed (c : Conversation.t) : Prop :=
  mirror c \/ (Conversation.lastMessage c = "Error" /\ finalText c = APOLOGY).

(** ** Persistence *)

(** The events that change the collection: a new chat, a deletion, a
    send that is accepted, and the resumption of a pending send. *)
Definition mutation (e : Event) (m : Machine) : bool :=
  match e with
  | NewChat _ | DeleteConversation _ => true
  | SelectConversation _ | TypeInput _ => false
  | Gesture clk ev =>
      match snd (dispatch clk ev (page m)) with Some _ => true | None => false end
  | SendMessage clk messageText =>
      match snd (sendMessage clk messageText (page m)) with
      | Some _ => true
      | None => false
      end
  | Settle n _ _ =>
      match nth_error (inflight m) n with Some _ => true | None => false end
  end.

(** ** Title *)

(** The title is "New Conversation" while there is no message, and the
    first 50 characters of the first message from then on. *)
Definition titled (c : Conversation.t) : Prop :=
  match Conversation.messages c with
  | [] => Conversation.title c = "New Conversation"
  | m :: _ => Conversation.title c = JsString.slice0 50 (Message.text m)
  end.

(** Ids are time values: the id a new conversation receives is taken to
    differ from the ids in the collection and from the ids captured by
    the pending sends. *)
Definition fresh (e : Event) (m : Machine) : Prop :=
  match e with
  | NewChat clk =>
      ~ In (JsString.of_Z (now clk)) (map Conversation.id (conversations (page m)))
      /\ ~ In (JsString.of_Z (now clk)) (map captured_id (inflight m))
  | _ => True
  end.

(** A run all of whose events are fresh where they occur. *)
Fixpoint fresh_run (es : list Event) (m : Machine) : Prop :=
  match es with
  | [] => True
  | e :: es' => fresh e m /\ fresh_run es' (step e m)
  end.

(** Every conversation is titled by its first message, and a pending
    send never points at a conversation without messages. *)
Definition TitleInv (m : Machine) : Prop :=
  Forall titled (conversations (page m))
  /\ (forall p c,
        In p (inflight m) -> In c (conversations (page m)) ->
        Conversation.id c = captured_id p -> Conversation.messages c <> []).

(** ** Shape of the reachable states *)

(** A text made of white space only. *)
Fixpoint blank (s : string) : bool :=
  match s with
  | EmptyString => true
  | String c s' => (JsString.is_ws c && blank s')%bool
  end.

(** The selection is empty or names a conversation of the collection. *)
Definition selection_valid (st : State) : Prop :=
  match currentConversationId st with
  | None => True
  | Some i => In i (map Conversation.id (conversations st))
  end.

(** Runs in which sendMessage is reached through the controls only. *)
Definition by_controls (es : list Event) : Prop :=
  Forall (fun e => match e with SendMessage _ _ => False | _ => True end) es.

(** The senders alternate, a user message first. *)
Definition alternates (l : list Message.t) : Prop :=
  forall k m, nth_error l k = Some m ->
              Message.sender m = if Nat.even k then user else agent.

(** The machine is idle with nothing pending, or busy with one send. *)
Definition single_flight (m : Machine) : Prop :=
  (isLoading (page m) = false /\ inflight m = [])
  \/ (isLoading (page m) = true /\ exists p, inflight m = [p]).

(** Transcripts alternate; the one a pending send points at awaits its
    answer and every other one is complete. *)
Definition DialogueInv (m : Machine) : Prop :=
  NoDup (map Conversation.id (conversations (page m)))
  /\ single_flight m
  /\ (forall c, In c (conversations (page m)) ->
        alternates (Conversation.messages c)
        /\ Nat.even (List.length (Conversation.messages c))
           = negb (existsb (fun p => String.eqb (Conversation.id c) (captured_id p))
                           (inflight m))).

(** The stored text is the collection whenever the collection is not
    empty, and is always a text the page can start on. *)
Definition StorageInv (m : Machine) : Prop :=
  (conversations (page m) <> [] ->
   localStorage (page m) = Some (JSON_stringify (conversations (page m))))
  /\ (exists m', boot (localStorage (page m)) = Ok m').

(** ** Sample states *)

(** The machine over an empty store. *)
Definition start : Machine := {| page := initial None; inflight := [] |}.

Definition t0 : Clock := {| now := 1700000000000; iso := "2023-11-14T22:13:20.000Z" |}.
Definition t1 : Clock := {| now := 1700000004000; iso := "2023-11-14T22:13:24.000Z" |}.
Definition t2 : Clock := {| now := 1700000009000; iso := "2023-11-14T22:13:29.000Z" |}.
Definition t3 : Clock := {| now := 1700000012000; iso := "2023-11-14T22:13:32.000Z" |}.

(** A conversation that holds "Hi" and its answer. *)
Definition m_two : Machine :=
  run [NewChat t0; SendMessage t1 "Hi"; Settle 0 t2 (Answered "Hello!")] start.

Definition st_two : State := page m_two.

(** A second message is sent on it. *)
Definition st_three : State := fst (sendMessage t3 "And now?" st_two).

Definition pending_two : Pending :=
  {| request :=
       {| message := "User: Hi" ++ JsString.newline ++ "Assistant: Hello!"
                     ++ JsString.newline ++ "User: And now?";
          agent_id := AGENT_ID;
          user_id := "chatbot-user";
          session_id := "1700000000000" |};
     captured_id := "1700000000000" |}.

(** The events of the sample conversation, and the same conversation
    obtained through the controls. *)
Definition es_two : list Event :=
  [NewChat t0; SendMessage t1 "Hi"; Settle 0 t2 (Answered "Hello!")].

Definition es_controls : list Event :=
  [NewChat t0; TypeInput "Hi"; Gesture t1 ClickSubmit; Settle 0 t2 (Answered "Hello!")].

(** The sample conversation itself. *)
Definition c_two : Conversation.t :=
  {| Conversation.id := "1700000000000";
     Conversation.title := "Hi";
     Conversation.messages :=
       [ {| Message.id := "1700000004000"; Message.text := "Hi";
            Message.sender := user; Message.timestamp := iso t1 |};
         {| Message.id := "1700000009001"; Message.text := "Hello!";
            Message.sender := agent; Message.timestamp := iso t2 |} ];
     Conversation.createdAt := iso t0;
     Conversation.lastMessage := "Hello!" |}.

(** The second message typed into the input, and the machine while that
    send is pending. *)
Definition st_typed : State := setInputValue "And now?" st_two.

Definition m_busy : Machine := {| page := st_three; inflight := [pending_two] |}.

(** A fresh conversation, and the send a click on the first starter
    prompt issues there. *)
Definition st_one : State := page (run [NewChat t0] start).

Definition pending_starter : Pending :=
  {| request :=
       {| message := "What is machine learning?";
          agent_id := AGENT_ID;
          user_id := "chatbot-user";
          session_id := "1700000000000" |};
     captured_id := "1700000000000" |}.

(** * Properties *)

(** ** Response normalisation *)

Lemma truthy_string (s : string) : Js.truthy (JStr s) = true <-> s <> "".
Proof.
  destruct s; simpl; split; intro H; try discriminate; try reflexivity.
  contradiction H; reflexivity.
Qed.

Lemma or_first_nonempty (v : JSValue) (vs : list JSValue) (fb : string) :
  first_nonempty (v :: vs) fb = (v || first_nonempty vs fb)%js.
Proof.
  unfold first_nonempty, Js.or; simpl. destruct (Js.truthy v); reflexivity.
Qed.

Lemma or_assoc (a b c : JSValue) : ((a || b) || c = a || (b || c))%js.
Proof.
  unfold Js.or. destruct (Js.truthy a) eqn:Ha.
  - rewrite Ha. reflexivity.
  - reflexivity.
Qed.

(** C6: on a response object the normalised text is the first non-empty
    candidate in the fixed order (result, answer, response sub-field, the
    payload itself when a string, raw_response, then "No response
    received") when [success] holds, and raw_response else "Error
    processing request" when it does not; the two sample payloads give
    "X" and "No response received". *)
Theorem normalize_precedence :
  (forall data : list (string * JSValue),
      normalize (JObj data) =
      Ok (if Js.truthy (Js.lookup "success" data)
          then first_nonempty (success_candidates data) "No response received"
          else first_nonempty (failure_candidates data) "Error processing request"))
  /\ normalize (JObj [("success", JBool true);
                      ("response", JObj [("result", JStr "X")])]) = Ok (JStr "X")
  /\ normalize (JObj [("success", JBool true); ("response", JObj [])])
     = Ok (JStr "No response received").
Proof.
  split; [| split; reflexivity].
  intro data. unfold normalize, success_candidates, failure_candidates; simpl.
  destruct (Js.truthy (Js.lookup "success" data)).
  - f_equal. rewrite !or_first_nonempty, !or_assoc.
    do 3 f_equal.
    destruct (Js.lookup "response" data); reflexivity.
  - rewrite or_first_nonempty. reflexivity.
Qed.

(** ** Composed context *)

Lemma trailing_skipn {A : Type} (n : nat) (l : list A) :
  trailing n l = skipn (List.length l - n) l.
Proof.
  unfold trailing. rewrite firstn_rev, rev_involutive. reflexivity.
Qed.

Lemma slice_trailing {A : Type} (n : nat) (l : list A) :
  JsArray.slice (- Z.of_nat (S n)) l = trailing (S n) l.
Proof.
  rewrite trailing_skipn. unfold JsArray.slice.
  replace (- Z.of_nat (S n) <? 0)%Z with true by (symmetry; apply Z.ltb_lt; lia).
  f_equal. lia.
Qed.

Lemma trailing_length {A : Type} (n : nat) (l : list A) :
  List.length (trailing n l) <= n.
Proof.
  unfold trailing. rewrite length_rev. apply firstn_le_length.
Qed.

Lemma trailing_nonempty {A : Type} (n : nat) (x : A) (l : list A) :
  trailing (S n) (x :: l) <> [].
Proof.
  rewrite trailing_skipn. intro H.
  apply (f_equal (@List.length A)) in H.
  rewrite length_skipn in H. cbn [List.length] in H. lia.
Qed.

Lemma renderLine_roles (m : Message.t) :
  renderLine m = match Message.sender m with
                 | user => "User: " ++ Message.text m
                 | agent => "Assistant: " ++ Message.text m
                 end.
Proof. unfold renderLine. destruct (Message.sender m); reflexivity. Qed.

Lemma join_renderLine_truthy (m : Message.t) (ms : list Message.t) :
  JsString.truthy (JsString.join JsString.newline (map renderLine (m :: ms))) = true.
Proof.
  unfold JsString.join. simpl.
  destruct (map renderLine ms); unfold renderLine;
    destruct (Message.sender m); reflexivity.
Qed.

Lemma fullMessage_buildContext (current : option Conversation.t) (messageText : string) :
  fullMessage current messageText =
  buildContext match current with
               | Some c => Conversation.messages c
               | None => []
               end messageText.
Proof.
  unfold fullMessage.
  set (h := match current with Some c => Conversation.messages c | None => [] end).
  change (-10)%Z with (- Z.of_nat 10)%Z. rewrite slice_trailing.
  destruct h as [|m0 h'] eqn:Eh.
  - reflexivity.
  - destruct (trailing 10 (m0 :: h')) as [|w ws] eqn:Ew.
    + exfalso. exact (trailing_nonempty 9 m0 h' Ew).
    + rewrite join_renderLine_truthy. unfold buildContext. rewrite Ew.
      do 2 f_equal. apply map_ext. intro a. apply renderLine_roles.
Qed.

(** ** What an accepted send does *)

Lemma sendMessage_inv (clk : Clock) (messageText : string) (st st' : State) (p : Pending) :
  sendMessage clk messageText st = (st', Some p) ->
  JsString.truthy (JsString.trim messageText) = true /\
  exists cur,
    currentConversationId st = Some cur /\
    JsString.truthy cur = true /\
    st' = setInputValue ""
            (setConversations
               (map (appendUser cur (userMessageOf clk messageText) messageText)
                    (conversations st))
               (setIsLoading true st)) /\
    p = {| request := {| message := fullMessage (currentConversation st) messageText;
                         agent_id := AGENT_ID;
                         user_id := "chatbot-user";
                         session_id := cur |};
           captured_id := cur |}.
Proof.
  unfold sendMessage.
  destruct (JsString.truthy (JsString.trim messageText)); simpl; [| discriminate].
  destruct (currentConversationId st) as [cur|]; [| discriminate].
  destruct (JsString.truthy cur) eqn:Hc; simpl; [| discriminate].
  intro H. inversion H; subst. split; [reflexivity |].
  exists cur. repeat split; assumption.
Qed.

Lemma sendMessage_accepts (clk : Clock) (messageText cur : string) (st : State) :
  JsString.truthy (JsString.trim messageText) = true ->
  currentConversationId st = Some cur ->
  JsString.truthy cur = true ->
  exists st' p, sendMessage clk messageText st = (st', Some p).
Proof.
  intros Ht Hc Hn. unfold sendMessage. rewrite Ht, Hc, Hn. simpl.
  eexists. eexists. reflexivity.
Qed.

Lemma sendMessage_rejected (clk : Clock) (messageText : string) (st st' : State) :
  sendMessage clk messageText st = (st', None) -> st' = st.
Proof.
  unfold sendMessage.
  destruct (JsString.truthy (JsString.trim messageText)); simpl.
  - destruct (currentConversationId st) as [cur|].
    + destruct (JsString.truthy cur); simpl; intro H; inversion H; reflexivity.
    + intro H; inversion H; reflexivity.
  - intro H; inversion H; reflexivity.
Qed.

Lemma dispatch_is_sendMessage (clk : Clock) (ev : UIEvent) (st st' : State) (p : Pending) :
  dispatch clk ev st = (st', Some p) ->
  exists messageText, sendMessage clk messageText st = (st', Some p).
Proof.
  unfold dispatch, handleKeyDown, handleSubmit. destruct ev as [|key shiftKey|idx].
  - destruct (operable SubmitButton st); [| discriminate].
    destruct (JsString.truthy _); [| discriminate].
    intro H. eexists; exact H.
  - destruct (operable MessageInput st); [| discriminate].
    destruct (String.eqb key "Enter" && negb shiftKey)%bool.
    + destruct (JsString.truthy _); [| discriminate].
      intro H. eexists; exact H.
    + destruct (String.eqb key "Enter" && operable SubmitButton st)%bool; [| discriminate].
      destruct (JsString.truthy _); [| discriminate].
      intro H. eexists; exact H.
  - destruct (operable (StarterPrompt idx) st); [| discriminate].
    intro H. eexists; exact H.
Qed.

Lemma appendUser_id (cur : string) (um : Message.t) (t : string) (c : Conversation.t) :
  Conversation.id (appendUser cur um t c) = Conversation.id c.
Proof. unfold appendUser. destruct (String.eqb _ _); reflexivity. Qed.

Lemma appendFollowUp_id (cur : string) (m : Message.t) (l : string) (c : Conversation.t) :
  Conversation.id (appendFollowUp cur m l c) = Conversation.id c.
Proof. unfold appendFollowUp. destruct (String.eqb _ _); reflexivity. Qed.

Lemma find_map_same_id (f : Conversation.t -> Conversation.t) (cur : string)
    (l : list Conversation.t) :
  (forall c, Conversation.id (f c) = Conversation.id c) ->
  find (fun c => String.eqb (Conversation.id c) cur) (map f l)
  = option_map f (find (fun c => String.eqb (Conversation.id c) cur) l).
Proof.
  intro Hid. induction l as [|c l IH]; simpl.
  - reflexivity.
  - rewrite Hid. destruct (String.eqb (Conversation.id c) cur); [reflexivity | exact IH].
Qed.

(** C7: the message of the request an accepted send issues is the
    composer's text over the history of the current conversation as the
    invoking render had it: at most its trailing ten messages, and not
    the user message this send appends, which follows that history in the
    state the send leaves. *)
Theorem context_from_prior_history
    (clk : Clock) (messageText : string) (st st' : State) (p : Pending) :
  sendMessage clk messageText st = (st', Some p) ->
  message (request p) = buildContext (historyOf st) messageText
  /\ List.length (trailing 10 (historyOf st)) <= 10
  /\ (historyOf st = [] -> message (request p) = messageText)
  /\ (forall c', currentConversation st' = Some c' ->
        Conversation.messages c' = (historyOf st ++ [userMessageOf clk messageText])%list).
Proof.
  intro H. apply sendMessage_inv in H.
  destruct H as [_ [cur [Hcur [_ [Hst' Hp]]]]]. subst p st'. simpl.
  assert (Hb : fullMessage (currentConversation st) messageText
               = buildContext (historyOf st) messageText)
    by apply fullMessage_buildContext.
  repeat split.
  - exact Hb.
  - apply trailing_length.
  - intro He. rewrite Hb, He. reflexivity.
  - intros c'. unfold historyOf, currentConversation. simpl. rewrite Hcur.
    rewrite find_map_same_id by (intro; apply appendUser_id).
    destruct (find _ (conversations st)) as [c|] eqn:Hf; simpl; [| discriminate].
    intro Hc'. inversion Hc'; subst c'.
    apply find_some in Hf. destruct Hf as [_ Heq].
    unfold appendUser. rewrite Heq. reflexivity.
Qed.

(** ** What the resumed send does *)

Lemma resume_conversations (clk : Clock) (p : Pending) (r : Reply) (st : State) :
  conversations (sendMessage_resume clk p r st)
  = map (appendFollowUp (captured_id p) (followUpOf clk r) (previewOf r))
        (conversations st).
Proof. destruct r; reflexivity. Qed.

Lemma resume_isLoading (clk : Clock) (p : Pending) (r : Reply) (st : State) :
  isLoading (sendMessage_resume clk p r st) = false.
Proof. reflexivity. Qed.

Lemma resume_selection (clk : Clock) (p : Pending) (r : Reply) (st : State) :
  currentConversationId (sendMessage_resume clk p r st) = currentConversationId st.
Proof. destruct r; reflexivity. Qed.

Lemma followUp_sender (clk : Clock) (r : Reply) :
  Message.sender (followUpOf clk r) = agent.
Proof. destruct r; reflexivity. Qed.

Lemma saveEffect_conversations (st : State) :
  conversations (saveEffect st) = conversations st.
Proof. unfold saveEffect. destruct (_ <? _)%nat; reflexivity. Qed.

Lemma saveEffect_isLoading (st : State) :
  isLoading (saveEffect st) = isLoading st.
Proof. unfold saveEffect. destruct (_ <? _)%nat; reflexivity. Qed.

Lemma saveEffect_selection (st : State) :
  currentConversationId (saveEffect st) = currentConversationId st.
Proof. unfold saveEffect. destruct (_ <? _)%nat; reflexivity. Qed.

(** C9: an accepted send raises the busy flag and joins the pending
    sends; when it resumes, with an answer or with a failure and on
    whatever the machine has become, the flag is down. *)
Theorem busy_flag_released
    (clk : Clock) (messageText : string) (m : Machine) (st' : State) (p : Pending) :
  sendMessage clk messageText (page m) = (st', Some p) ->
  isLoading (page (step (SendMessage clk messageText) m)) = true
  /\ nth_error (inflight (step (SendMessage clk messageText) m))
               (List.length (inflight m)) = Some p
  /\ (forall m2 n clk' r,
        nth_error (inflight m2) n = Some p ->
        isLoading (page (step (Settle n clk' r) m2)) = false).
Proof.
  intro H. simpl. rewrite H. simpl.
  apply sendMessage_inv in H. destruct H as [_ [cur [_ [_ [Hst' _]]]]].
  repeat split.
  - rewrite saveEffect_isLoading. subst st'. reflexivity.
  - rewrite nth_error_app2 by lia. rewrite Nat.sub_diag. reflexivity.
  - intros m2 n clk' r Hn. simpl. rewrite Hn. simpl.
    rewrite saveEffect_isLoading. apply resume_isLoading.
Qed.

(** ** The lastMessage preview *)

Lemma appendFollowUp_hit (cur : string) (m : Message.t) (l : string) (c : Conversation.t) :
  Conversation.id c = cur ->
  appendFollowUp cur m l c
  = {| Conversation.id := Conversation.id c;
       Conversation.title := Conversation.title c;
       Conversation.messages := Conversation.messages c ++ [m];
       Conversation.createdAt := Conversation.createdAt c;
       Conversation.lastMessage := l |}.
Proof.
  intro H. unfold appendFollowUp. apply String.eqb_eq in H. rewrite H. reflexivity.
Qed.

Lemma appendFollowUp_miss (cur : string) (m : Message.t) (l : string) (c : Conversation.t) :
  Conversation.id c <> cur -> appendFollowUp cur m l c = c.
Proof.
  intro H. unfold appendFollowUp. apply String.eqb_neq in H. rewrite H. reflexivity.
Qed.

Lemma appendUser_hit (cur : string) (um : Message.t) (t : string) (c : Conversation.t) :
  Conversation.id c = cur ->
  appendUser cur um t c
  = {| Conversation.id := Conversation.id c;
       Conversation.title :=
         if (List.length (Conversation.messages c) =? 0)%nat
         then JsString.slice0 50 t
         else Conversation.title c;
       Conversation.messages := Conversation.messages c ++ [um];
       Conversation.createdAt := Conversation.createdAt c;
       Conversation.lastMessage := t |}.
Proof.
  intro H. unfold appendUser. apply String.eqb_eq in H. rewrite H. reflexivity.
Qed.

Lemma appendUser_miss (cur : string) (um : Message.t) (t : string) (c : Conversation.t) :
  Conversation.id c <> cur -> appendUser cur um t c = c.
Proof.
  intro H. unfold appendUser. apply String.eqb_neq in H. rewrite H. reflexivity.
Qed.

Lemma finalText_snoc (msgs : list Message.t) (m : Message.t) :
  last (map Message.text (msgs ++ [m])) "" = Message.text m.
Proof. rewrite map_app. simpl. apply last_last. Qed.

Lemma appendUser_previewed (cur : string) (clk : Clock) (t : string) (c : Conversation.t) :
  previewed c -> previewed (appendUser cur (userMessageOf clk t) t c).
Proof.
  intro H. unfold appendUser.
  destruct (String.eqb (Conversation.id c) cur); [| exact H].
  left. unfold mirror. simpl. rewrite finalText_snoc. reflexivity.
Qed.

Lemma appendFollowUp_previewed (cur : string) (clk : Clock) (r : Reply)
    (c : Conversation.t) :
  previewed c -> previewed (appendFollowUp cur (followUpOf clk r) (previewOf r) c).
Proof.
  intro H. unfold appendFollowUp.
  destruct (String.eqb (Conversation.id c) cur); [| exact H].
  destruct r.
  - left. unfold mirror. simpl. rewrite finalText_snoc. reflexivity.
  - right. unfold finalText. simpl. rewrite finalText_snoc. split; reflexivity.
Qed.

Lemma step_keeps_previewed (e : Event) (m : Machine) :
  Forall previewed (conversations (page m)) ->
  Forall previewed (conversations (page (step e m))).
Proof.
  intro H.
  assert (Hsend : forall clk t st' p,
             sendMessage clk t (page m) = (st', Some p) ->
             Forall previewed (conversations (saveEffect st'))).
  { intros clk t st' p E. rewrite saveEffect_conversations.
    apply sendMessage_inv in E. destruct E as [_ [cur [_ [_ [Hst' _]]]]].
    subst st'. cbn [conversations setInputValue setConversations].
    apply Forall_map. revert H. apply Forall_impl.
    intro c. apply appendUser_previewed. }
  destruct e as [clk | i | v | i | clk ev | clk t | n clk r]; cbn [step].
  - cbn [page]. rewrite saveEffect_conversations. constructor; [| exact H].
    left. reflexivity.
  - destruct (existsb _ _); exact H.
  - destruct (operable _ _); exact H.
  - cbn [page]. rewrite saveEffect_conversations.
    assert (Hc : conversations (deleteConversation i (page m))
                 = filter (fun c => negb (String.eqb (Conversation.id c) i))
                          (conversations (page m))).
    { unfold deleteConversation. destruct (currentConversationId (page m));
        [destruct (String.eqb _ i) |]; reflexivity. }
    rewrite Hc. apply Forall_forall. intros c Hin. apply filter_In in Hin.
    rewrite Forall_forall in H. apply H. apply Hin.
  - destruct (dispatch clk ev (page m)) as [st' [p|]] eqn:E; cbn [started page];
      [| exact H].
    apply dispatch_is_sendMessage in E. destruct E as [t E]. exact (Hsend _ _ _ _ E).
  - destruct (sendMessage clk t (page m)) as [st' [p|]] eqn:E; cbn [started page];
      [| exact H].
    exact (Hsend _ _ _ _ E).
  - destruct (nth_error (inflight m) n) as [p|]; [| exact H]. cbn [page].
    rewrite saveEffect_conversations, resume_conversations.
    apply Forall_map. revert H. apply Forall_impl.
    intro c. apply appendFollowUp_previewed.
Qed.

Lemma run_keeps_previewed (es : list Event) (m : Machine) :
  Forall previewed (conversations (page m)) ->
  Forall previewed (conversations (page (run es m))).
Proof.
  revert m. induction es as [|e es IH]; intros m H; simpl.
  - exact H.
  - apply IH. apply step_keeps_previewed. exact H.
Qed.

(** C1, as the code has it: a new conversation has no message and an
    empty preview; after the user append of an accepted send and after
    the append of an answer, the preview of the conversation appended to
    is the text of its final message; after the append of the error
    placeholder the preview is the marker "Error" and the final message
    carries the apology; and in every state reached from an empty store
    each conversation shows one of these two shapes. *)
Theorem preview_after_append :
  (forall clk st,
      exists c rest,
        conversations (createNewConversation clk st) = c :: rest
        /\ Conversation.messages c = [] /\ Conversation.lastMessage c = "")
  /\ (forall clk messageText st st' p,
        sendMessage clk messageText st = (st', Some p) ->
        forall c, In c (conversations st') ->
                  Conversation.id c = captured_id p -> mirror c)
  /\ (forall clk p agentResponseText st c,
        In c (conversations (sendMessage_resume clk p (Answered agentResponseText) st)) ->
        Conversation.id c = captured_id p -> mirror c)
  /\ (forall clk p st c,
        In c (conversations (sendMessage_resume clk p Failed st)) ->
        Conversation.id c = captured_id p ->
        Conversation.lastMessage c = "Error" /\ finalText c = APOLOGY
        /\ ~ mirror c)
  /\ (forall es, Forall previewed (conversations (page (run es start)))).
Proof.
  split; [| split; [| split; [| split]]].
  - intros clk st. eexists. eexists. simpl. repeat split.
  - intros clk messageText st st' p H c Hin Hid.
    apply sendMessage_inv in H. destruct H as [_ [cur [_ [_ [Hst' Hp]]]]].
    subst st' p. simpl in Hin, Hid.
    apply in_map_iff in Hin. destruct Hin as [c0 [Hc _]]. subst c.
    rewrite appendUser_id in Hid. rewrite appendUser_hit by exact Hid.
    unfold mirror. simpl. rewrite finalText_snoc. reflexivity.
  - intros clk p t st c Hin Hid.
    rewrite resume_conversations in Hin.
    apply in_map_iff in Hin. destruct Hin as [c0 [Hc _]]. subst c.
    rewrite appendFollowUp_id in Hid. rewrite appendFollowUp_hit by exact Hid.
    unfold mirror. simpl. rewrite finalText_snoc. reflexivity.
  - intros clk p st c Hin Hid.
    rewrite resume_conversations in Hin.
    apply in_map_iff in Hin. destruct Hin as [c0 [Hc _]]. subst c.
    rewrite appendFollowUp_id in Hid. rewrite appendFollowUp_hit by exact Hid.
    unfold mirror, finalText. simpl. rewrite finalText_snoc.
    split; [reflexivity |]. split; [reflexivity | discriminate].
  - intro es. apply run_keeps_previewed. constructor.
Qed.

(** ** Sample runs *)

Lemma boot_absent : boot None = Ok start.
Proof. reflexivity. Qed.

(** Scenario B: "Hi" on a fresh conversation, answered. *)
Example scenario_B :
  map (fun c => (Conversation.title c,
                 map (fun m => (Message.sender m, Message.text m))
                     (Conversation.messages c)))
      (conversations
         (page (run [NewChat t0; SendMessage t1 "Hi"; Settle 0 t2 (Answered "Hello!")]
                    start)))
  = [("Hi", [(user, "Hi"); (agent, "Hello!")])].
Proof. vm_compute. reflexivity. Qed.

(** Scenario A: "New Chat" on an empty store. *)
Example scenario_A :
  let st := page (run [NewChat t0] start) in
  map (fun c => (Conversation.id c, Conversation.title c,
                 Conversation.messages c, Conversation.lastMessage c))
      (conversations st)
  = [("1700000000000", "New Conversation", [], "")]
  /\ currentConversationId st = Some "1700000000000".
Proof. vm_compute. split; reflexivity. Qed.

(** Scenario C: the request fails. *)
Example scenario_C :
  let st := page (run [NewChat t0; SendMessage t1 "Hi"; Settle 0 t2 Failed] start) in
  map (fun c => (Conversation.lastMessage c,
                 map (fun m => (Message.sender m, Message.text m))
                     (Conversation.messages c)))
      (conversations st)
  = [("Error", [(user, "Hi"); (agent, APOLOGY)])]
  /\ isLoading st = false.
Proof. vm_compute. split; reflexivity. Qed.

(** Scenario E: deleting the only conversation, and the active one of
    three. *)
Example scenario_E :
  currentConversationId
    (page (run [NewChat t0; DeleteConversation "1700000000000"] start)) = None
  /\ (let st := page (run [NewChat t0; NewChat t1; NewChat t2;
                           DeleteConversation "1700000009000"] start) in
      map Conversation.id (conversations st) = ["1700000004000"; "1700000000000"]
      /\ currentConversationId st = Some "1700000004000").
Proof. vm_compute. repeat split. Qed.

(** A body that is [null] makes the read of [data.success] throw, which
    the [catch] turns into the error branch. *)
Example null_body_fails :
  normalize JNull = Throw "TypeError" /\ try_block (Body JNull) = Some Failed.
Proof. split; reflexivity. Qed.

(** An answer found in the [answer] sub-field behind an empty [result]. *)
Example answer_behind_empty_result :
  try_block (Body (JObj [("success", JBool true);
                         ("response", JObj [("result", JStr "");
                                            ("answer", JStr "42")]);
                         ("raw_response", JStr "raw")]))
  = Some (Answered "42").
Proof. reflexivity. Qed.

(** [slice(-10)] on twelve entries keeps the last ten. *)
Example slice_of_twelve :
  JsArray.slice (-10) [1; 2; 3; 4; 5; 6; 7; 8; 9; 10; 11; 12]
  = [3; 4; 5; 6; 7; 8; 9; 10; 11; 12].
Proof. reflexivity. Qed.

(** C1 fails as stated: after the error append of a failed send the
    preview is "Error" while the final message is the apology. *)
Lemma error_preview_is_not_final_text :
  ~ Forall mirror
      (conversations
         (page (run [NewChat t0; SendMessage t1 "Hi"; Settle 0 t2 Failed] start))).
Proof.
  intro H. apply Forall_inv in H. unfold mirror in H.
  vm_compute in H. discriminate H.
Qed.

(** ** Title *)

(** A new conversation is titled "New Conversation"; the user append of
    an accepted send sets the title of a conversation it reaches to the
    first 50 characters of the text when that conversation had no
    message, and leaves every other title as it is; the follow-up append
    changes no title. *)
Lemma title_per_append
    (clk : Clock) (messageText : string) (st st' : State) (p : Pending) :
  sendMessage clk messageText st = (st', Some p) ->
  (forall clk0 st0,
      exists c rest,
        conversations (createNewConversation clk0 st0) = c :: rest
        /\ Conversation.title c = "New Conversation"
        /\ Conversation.messages c = [])
  /\ (forall k c,
        nth_error (conversations st) k = Some c ->
        exists c',
          nth_error (conversations st') k = Some c'
          /\ (Conversation.id c = captured_id p ->
              Conversation.messages c = [] ->
              Conversation.title c' = JsString.slice0 50 messageText
              /\ Conversation.messages c' = [userMessageOf clk messageText])
          /\ (Conversation.messages c <> [] ->
              Conversation.title c' = Conversation.title c)
          /\ (Conversation.id c <> captured_id p -> c' = c))
  /\ (forall clk' r st'' k c,
        nth_error (conversations st'') k = Some c ->
        exists c',
          nth_error (conversations (sendMessage_resume clk' p r st'')) k = Some c'
          /\ Conversation.title c' = Conversation.title c).
Proof.
  intro H. apply sendMessage_inv in H.
  destruct H as [_ [cur [_ [_ [Hst' Hp]]]]].
  split; [| split].
  - intros clk0 st0. eexists. eexists. simpl. repeat split.
  - intros k c Hk. subst st' p. simpl.
    rewrite nth_error_map, Hk. simpl. eexists. split; [reflexivity |].
    split; [| split].
    + intros Hid He. rewrite appendUser_hit by exact Hid. simpl.
      rewrite He. split; reflexivity.
    + intro Hne. unfold appendUser.
      destruct (String.eqb (Conversation.id c) cur); [| reflexivity].
      simpl. destruct (Conversation.messages c); [contradiction Hne |]; reflexivity.
    + intro Hid. apply appendUser_miss. exact Hid.
  - intros clk' r st'' k c Hk.
    rewrite resume_conversations, nth_error_map, Hk. simpl.
    eexists. split; [reflexivity |].
    unfold appendFollowUp. destruct (String.eqb _ _); reflexivity.
Qed.

(** ** Counting messages *)

Lemma messageCount_appendUser (cur : string) (um : Message.t) (t : string)
    (cs : list Conversation.t) :
  messageCount (map (appendUser cur um t) cs) = messageCount cs + carriers cur cs.
Proof.
  unfold messageCount, carriers. induction cs as [|c cs IH]; simpl.
  - reflexivity.
  - rewrite IH. unfold appendUser.
    destruct (String.eqb (Conversation.id c) cur); simpl.
    + rewrite length_app. simpl. lia.
    + lia.
Qed.

Lemma messageCount_appendFollowUp (cur : string) (m : Message.t) (l : string)
    (cs : list Conversation.t) :
  messageCount (map (appendFollowUp cur m l) cs) = messageCount cs + carriers cur cs.
Proof.
  unfold messageCount, carriers. induction cs as [|c cs IH]; simpl.
  - reflexivity.
  - rewrite IH. unfold appendFollowUp.
    destruct (String.eqb (Conversation.id c) cur); simpl.
    + rewrite length_app. simpl. lia.
    + lia.
Qed.

Lemma no_carrier_appendFollowUp (cur : string) (m : Message.t) (l : string)
    (cs : list Conversation.t) :
  carriers cur cs = 0 -> map (appendFollowUp cur m l) cs = cs.
Proof.
  unfold carriers. induction cs as [|c cs IH]; simpl; intro H.
  - reflexivity.
  - unfold appendFollowUp at 1.
    destruct (String.eqb (Conversation.id c) cur); simpl in H.
    + discriminate.
    + rewrite IH by exact H. reflexivity.
Qed.

Lemma carriers_absent (i : string) (cs : list Conversation.t) :
  ~ In i (map Conversation.id cs) -> carriers i cs = 0.
Proof.
  unfold carriers. induction cs as [|c cs IH]; simpl; intro H.
  - reflexivity.
  - destruct (String.eqb (Conversation.id c) i) eqn:E.
    + apply String.eqb_eq in E. exfalso. apply H. left. exact E.
    + apply IH. intro Hin. apply H. right. exact Hin.
Qed.

Lemma carriers_unique (i : string) (cs : list Conversation.t) :
  NoDup (map Conversation.id cs) ->
  In i (map Conversation.id cs) ->
  carriers i cs = 1.
Proof.
  induction cs as [|c cs IH]; simpl; intros Hnd Hin.
  - contradiction.
  - inversion Hnd as [|x xs Hnotin Hnd']; subst.
    unfold carriers. simpl.
    destruct (String.eqb (Conversation.id c) i) eqn:E.
    + apply String.eqb_eq in E. subst i. simpl. f_equal.
      apply (carriers_absent _ _ Hnotin).
    + apply String.eqb_neq in E. destruct Hin as [Hin | Hin]; [contradiction |].
      apply IH; assumption.
Qed.

(** C5 fails as stated: with two conversations, a send on the active
    one whose conversation is deleted before the answer arrives leaves no
    follow-up anywhere; settling the pending send adds no message. *)
Lemma follow_up_lost_after_delete :
  let m := run [NewChat t0; NewChat t1; SendMessage t2 "Hi";
                DeleteConversation "1700000004000"] start in
  List.length (inflight m) = 1
  /\ messageCount (conversations (page (step (Settle 0 t3 (Answered "Hello!")) m)))
     <> messageCount (conversations (page m)) + 1.
Proof. vm_compute. split; [reflexivity | discriminate]. Qed.

Lemma appendUser_at (cur : string) (um : Message.t) (t : string)
    (cs : list Conversation.t) (k : nat) (c : Conversation.t) :
  nth_error cs k = Some c ->
  exists c',
    nth_error (map (appendUser cur um t) cs) k = Some c'
    /\ (Conversation.id c = cur ->
        Conversation.messages c' = (Conversation.messages c ++ [um])%list)
    /\ (Conversation.id c <> cur -> c' = c).
Proof.
  intro Hk. rewrite nth_error_map, Hk. simpl. eexists. split; [reflexivity |]. split.
  - intro Hid. rewrite appendUser_hit by exact Hid. reflexivity.
  - apply appendUser_miss.
Qed.

Lemma appendFollowUp_at (cur : string) (m : Message.t) (l : string)
    (cs : list Conversation.t) (k : nat) (c : Conversation.t) :
  nth_error cs k = Some c ->
  exists c',
    nth_error (map (appendFollowUp cur m l) cs) k = Some c'
    /\ (Conversation.id c = cur ->
        Conversation.messages c' = (Conversation.messages c ++ [m])%list)
    /\ (Conversation.id c <> cur -> c' = c).
Proof.
  intro Hk. rewrite nth_error_map, Hk. simpl. eexists. split; [reflexivity |]. split.
  - intro Hid. rewrite appendFollowUp_hit by exact Hid. reflexivity.
  - apply appendFollowUp_miss.
Qed.

(** C5, as the code has it: an accepted send leaves the collection with
    the same conversations in the same places; every conversation
    carrying the active id has kept its messages and gained, at the end,
    the user message with the text sent, and every other conversation is
    as it was; that is one message in the whole collection when the ids
    are distinct and the active conversation is in it.  When the send
    resumes, on any later state, the same holds with the follow-up, an
    agent message carrying the answer or the apology: every conversation
    still carrying the id keeps its messages and gains the follow-up at
    the end, the others are as they were; when no conversation carries
    the id any more the follow-up is appended nowhere and the collection
    is left as it is; the selection made in the meantime plays no part. *)
Theorem one_message_per_carrier
    (clk : Clock) (messageText : string) (st st' : State) (p : Pending) :
  sendMessage clk messageText st = (st', Some p) ->
  messageCount (conversations st')
  = messageCount (conversations st) + carriers (captured_id p) (conversations st)
  /\ (NoDup (map Conversation.id (conversations st)) ->
      In (captured_id p) (map Conversation.id (conversations st)) ->
      messageCount (conversations st') = messageCount (conversations st) + 1)
  /\ List.length (conversations st') = List.length (conversations st)
  /\ (forall k c,
        nth_error (conversations st) k = Some c ->
        exists c',
          nth_error (conversations st') k = Some c'
          /\ (Conversation.id c = captured_id p ->
              Conversation.messages c'
              = (Conversation.messages c ++ [userMessageOf clk messageText])%list)
          /\ (Conversation.id c <> captured_id p -> c' = c))
  /\ Message.sender (userMessageOf clk messageText) = user
  /\ Message.text (userMessageOf clk messageText) = messageText
  /\ (forall clk' r st'',
        let after := conversations (sendMessage_resume clk' p r st'') in
        messageCount after
        = messageCount (conversations st'') + carriers (captured_id p) (conversations st'')
        /\ (NoDup (map Conversation.id (conversations st'')) ->
            In (captured_id p) (map Conversation.id (conversations st'')) ->
            messageCount after = messageCount (conversations st'') + 1)
        /\ List.length after = List.length (conversations st'')
        /\ (forall k c,
              nth_error (conversations st'') k = Some c ->
              exists c',
                nth_error after k = Some c'
                /\ (Conversation.id c = captured_id p ->
                    Conversation.messages c'
                    = (Conversation.messages c ++ [followUpOf clk' r])%list)
                /\ (Conversation.id c <> captured_id p -> c' = c))
        /\ Message.sender (followUpOf clk' r) = agent
        /\ Message.text (followUpOf clk' r)
           = match r with
             | Answered agentResponseText => agentResponseText
             | Failed => APOLOGY
             end
        /\ (~ In (captured_id p) (map Conversation.id (conversations st'')) ->
            after = conversations st'')
        /\ (forall other,
              conversations (sendMessage_resume clk' p r
                               (setCurrentConversationId other st'')) = after)).
Proof.
  intro H. apply sendMessage_inv in H.
  destruct H as [_ [cur [_ [_ [Hst' Hp]]]]].
  assert (Hcap : captured_id p = cur) by (subst p; reflexivity).
  rewrite Hcap. clear Hp. subst st'. cbn [conversations setInputValue setConversations].
  split; [apply messageCount_appendUser |]. split; [| split; [| split; [| split; [| split]]]].
  - intros Hnd Hin. rewrite messageCount_appendUser.
    rewrite carriers_unique by assumption. reflexivity.
  - apply length_map.
  - intros k c Hk. apply appendUser_at. exact Hk.
  - reflexivity.
  - reflexivity.
  - intros clk' r st''. cbv zeta. rewrite resume_conversations, Hcap.
    split; [apply messageCount_appendFollowUp |].
    split; [| split; [| split; [| split; [| split; [| split]]]]].
    + intros Hnd Hin. rewrite messageCount_appendFollowUp.
      rewrite carriers_unique by assumption. reflexivity.
    + apply length_map.
    + intros k c Hk. apply appendFollowUp_at. exact Hk.
    + apply followUp_sender.
    + destruct r; reflexivity.
    + intro Hout. apply no_carrier_appendFollowUp. apply carriers_absent. exact Hout.
    + intro other. rewrite resume_conversations, Hcap. reflexivity.
Qed.

(** C10 fails as stated: a send is accepted on a conversation that is
    deleted before the answer arrives, and a new conversation is opened;
    when the send resumes no conversation carries the captured id, and
    the follow-up is appended to no conversation: the one conversation of
    the collection is not the one that was active and holds no
    message. *)
Lemma follow_up_has_no_target_after_delete :
  let m := run [NewChat t0; SendMessage t1 "Hi";
                DeleteConversation "1700000000000"; NewChat t2] start in
  map captured_id (inflight m) = ["1700000000000"]
  /\ map (fun c => (Conversation.id c, Conversation.messages c))
         (conversations (page (step (Settle 0 t3 (Answered "Hello!")) m)))
     = [("1700000009000", [])].
Proof. vm_compute. split; reflexivity. Qed.

(** C10, as the code has it: the id captured by an accepted send is the
    one that was active when it was invoked and is the request's session
    id; when the send resumes, on any later state, the follow-up message
    is appended to the conversations still carrying that id and every
    other conversation is left as it is, whatever conversation is
    selected by then; the selection itself is not touched; and when no
    conversation carries the id any more, the follow-up is appended to no
    conversation and the collection is left as it is. *)
Theorem follow_up_targets_captured_id
    (clk : Clock) (messageText : string) (st st' : State) (p : Pending) :
  sendMessage clk messageText st = (st', Some p) ->
  currentConversationId st = Some (captured_id p)
  /\ session_id (request p) = captured_id p
  /\ (forall clk' r st'' k c,
        nth_error (conversations st'') k = Some c ->
        exists c',
          nth_error (conversations (sendMessage_resume clk' p r st'')) k = Some c'
          /\ Conversation.id c' = Conversation.id c
          /\ (Conversation.id c = captured_id p ->
              Conversation.messages c'
              = (Conversation.messages c ++ [followUpOf clk' r])%list)
          /\ (Conversation.id c <> captured_id p -> c' = c))
  /\ (forall clk' r st'' other,
        conversations (sendMessage_resume clk' p r (setCurrentConversationId other st''))
        = conversations (sendMessage_resume clk' p r st'')
        /\ currentConversationId
             (sendMessage_resume clk' p r (setCurrentConversationId other st''))
           = other)
  /\ (forall clk' r st'',
        ~ In (captured_id p) (map Conversation.id (conversations st'')) ->
        conversations (sendMessage_resume clk' p r st'') = conversations st'').
Proof.
  intro H. apply sendMessage_inv in H.
  destruct H as [_ [cur [Hcur [_ [_ Hp]]]]].
  split; [subst p; exact Hcur |]. split; [subst p; reflexivity |].
  split; [| split].
  - intros clk' r st'' k c Hk.
    rewrite resume_conversations, nth_error_map, Hk. simpl.
    eexists. split; [reflexivity |].
    split; [apply appendFollowUp_id |].
    unfold appendFollowUp. split.
    + intro Heq. apply String.eqb_eq in Heq. rewrite Heq. reflexivity.
    + intro Hne. apply String.eqb_neq in Hne. rewrite Hne. reflexivity.
  - intros clk' r st'' other. split.
    + rewrite !resume_conversations. reflexivity.
    + rewrite resume_selection. reflexivity.
  - intros clk' r st'' Hout. rewrite resume_conversations.
    apply no_carrier_appendFollowUp. apply carriers_absent. exact Hout.
Qed.

(** ** Persistence *)

Lemma saveEffect_spec (st : State) :
  (conversations st <> [] ->
   localStorage (saveEffect st) = Some (JSON_stringify (conversations st)))
  /\ (conversations st = [] -> localStorage (saveEffect st) = localStorage st).
Proof.
  unfold saveEffect. destruct (conversations st) as [|c cs] eqn:E; simpl.
  - split; [intro H; contradiction H; reflexivity | reflexivity].
  - split; [reflexivity | discriminate].
Qed.

Lemma sendMessage_storage (clk : Clock) (messageText : string) (st : State) :
  localStorage (fst (sendMessage clk messageText st)) = localStorage st.
Proof.
  unfold sendMessage.
  destruct (JsString.truthy (JsString.trim messageText)); simpl; [| reflexivity].
  destruct (currentConversationId st) as [cur|]; [| reflexivity].
  destruct (JsString.truthy cur); reflexivity.
Qed.

Lemma deleteConversation_storage (i : string) (st : State) :
  localStorage (deleteConversation i st) = localStorage st.
Proof.
  unfold deleteConversation. destruct (currentConversationId st) as [cur|]; [| reflexivity].
  destruct (String.eqb cur i); reflexivity.
Qed.

Lemma resume_storage (clk : Clock) (p : Pending) (r : Reply) (st : State) :
  localStorage (sendMessage_resume clk p r st) = localStorage st.
Proof. destruct r; reflexivity. Qed.

(** C4 fails as stated: deleting the only conversation empties the
    collection and writes nothing; the stored text is still the
    serialisation that holds the deleted conversation. *)
Lemma emptying_delete_is_not_written :
  let m := run [NewChat t0; DeleteConversation "1700000000000"] start in
  conversations (page m) = []
  /\ localStorage (page m) <> Some (JSON_stringify (conversations (page m))).
Proof. vm_compute. split; [reflexivity | discriminate]. Qed.

(** C4, as the code has it: after an event that changes the collection,
    the stored text is the serialisation of the whole collection when the
    collection is not empty, and is what it was before the event when the
    collection has become empty. *)
Theorem write_through_unless_empty (e : Event) (m : Machine) :
  mutation e m = true ->
  (conversations (page (step e m)) <> [] ->
   localStorage (page (step e m))
   = Some (JSON_stringify (conversations (page (step e m)))))
  /\ (conversations (page (step e m)) = [] ->
      localStorage (page (step e m)) = localStorage (page m)).
Proof.
  assert (Hsave : forall st,
             (conversations (saveEffect st) <> [] ->
              localStorage (saveEffect st)
              = Some (JSON_stringify (conversations (saveEffect st))))
             /\ (conversations (saveEffect st) = [] ->
                 localStorage (saveEffect st) = localStorage st)).
  { intro st. rewrite saveEffect_conversations. apply saveEffect_spec. }
  destruct e as [clk | i | v | i | clk ev | clk messageText | n clk r];
    cbn [step mutation]; try discriminate.
  - intros _. cbn [page].
    destruct (Hsave (createNewConversation clk (page m))) as [H1 H2].
    split; [exact H1 |]. intro H. rewrite (H2 H). reflexivity.
  - intros _. cbn [page].
    destruct (Hsave (deleteConversation i (page m))) as [H1 H2].
    split; [exact H1 |]. intro H. rewrite (H2 H). apply deleteConversation_storage.
  - destruct (dispatch clk ev (page m)) as [st' [p|]] eqn:E; cbn [snd started page];
      [| discriminate].
    intros _. destruct (Hsave st') as [H1 H2]. split; [exact H1 |].
    intro H. rewrite (H2 H).
    apply dispatch_is_sendMessage in E. destruct E as [t E].
    pose proof (sendMessage_storage clk t (page m)) as Hs. rewrite E in Hs. exact Hs.
  - destruct (sendMessage clk messageText (page m)) as [st' [p|]] eqn:E;
      cbn [snd started page]; [| discriminate].
    intros _. destruct (Hsave st') as [H1 H2]. split; [exact H1 |].
    intro H. rewrite (H2 H).
    pose proof (sendMessage_storage clk messageText (page m)) as Hs.
    rewrite E in Hs. exact Hs.
  - destruct (nth_error (inflight m) n) as [p|]; [| discriminate].
    intros _. cbn [page].
    destruct (Hsave (sendMessage_resume clk p r (page m))) as [H1 H2].
    split; [exact H1 |]. intro H. rewrite (H2 H). apply resume_storage.
Qed.

(** ** The busy flag as a guard *)

Lemma busy_not_operable (c : Control) (st : State) :
  isLoading st = true -> operable c st = false.
Proof.
  intro H. unfold operable, disabled. destruct c; rewrite H;
    rewrite ?orb_true_r; apply andb_false_r.
Qed.

(** C3 fails as stated: while a send is in flight, a second call of
    sendMessage is accepted; it changes the state and is added to the
    pending sends. *)
Lemma second_send_accepted_while_busy :
  let m := run [NewChat t0; SendMessage t1 "one"] start in
  isLoading (page m) = true
  /\ step (SendMessage t2 "two") m <> m
  /\ List.length (inflight (step (SendMessage t2 "two") m)) = 2.
Proof.
  vm_compute. split; [reflexivity |]. split; [| reflexivity].
  intro H. discriminate H.
Qed.

(** C3, as the code has it: while the busy flag is up no control of the
    page invokes sendMessage, so a gesture leaves the state as it is and
    starts no send; sendMessage itself does not read the flag, and a call
    made while it is up, with a text that is not blank and a conversation
    selected, is accepted: it appends the user message and issues a
    request. *)
Theorem busy_guard_is_at_call_sites (st : State) :
  isLoading st = true ->
  (forall clk ev, dispatch clk ev st = (st, None))
  /\ (forall m clk ev, page m = st -> step (Gesture clk ev) m = m)
  /\ (forall clk messageText cur,
        JsString.truthy (JsString.trim messageText) = true ->
        currentConversationId st = Some cur ->
        JsString.truthy cur = true ->
        exists st' p,
          sendMessage clk messageText st = (st', Some p)
          /\ conversations st'
             = map (appendUser cur (userMessageOf clk messageText) messageText)
                   (conversations st)
          /\ session_id (request p) = cur).
Proof.
  intro Hbusy.
  assert (Hd : forall clk ev, dispatch clk ev st = (st, None)).
  { intros clk ev. unfold dispatch.
    destruct ev; rewrite busy_not_operable by exact Hbusy; reflexivity. }
  split; [exact Hd |]. split.
  - intros m clk ev Hm. cbn [step]. rewrite Hm, Hd. reflexivity.
  - intros clk messageText cur Ht Hc Hn.
    destruct (sendMessage_accepts clk messageText st Ht Hc Hn) as [st' [p H]].
    exists st', p. split; [exact H |].
    apply sendMessage_inv in H. destruct H as [_ [cur' [Hc' [_ [Hst' Hp]]]]].
    rewrite Hc in Hc'. inversion Hc'; subst cur'. subst st' p. split; reflexivity.
Qed.

(** ** Start-up *)

Lemma mount_absent : mount None = Ok (initial None).
Proof. reflexivity. Qed.

Lemma mount_empty_text : mount (Some (Malformed "")) = Ok (initial (Some (Malformed ""))).
Proof. reflexivity. Qed.

(** A stored serialisation seeds the collection; its head, when there is
    one, becomes the active conversation; the text is left as stored. *)
Lemma mount_parseable (cs : list Conversation.t) :
  exists st,
    mount (Some (Serialized cs)) = Ok st
    /\ conversations st = cs
    /\ currentConversationId st = option_map Conversation.id (hd_error cs)
    /\ localStorage st = Some (Serialized cs)
    /\ isLoading st = false.
Proof.
  destruct cs as [|c cs]; eexists; (split; [reflexivity |]); repeat split.
Qed.

(** A stored text that is not empty and that JSON.parse rejects makes the
    load effect throw. *)
Lemma mount_malformed (raw : string) :
  raw <> "" -> mount (Some (Malformed raw)) = Throw "SyntaxError".
Proof.
  intro H. destruct raw; [contradiction H; reflexivity | reflexivity].
Qed.

(** C2 on the code: with the stored text "{oops" the load effect throws
    the SyntaxError of JSON.parse; the page does not start with an empty
    collection. *)
Theorem boot_throws_on_malformed_text :
  boot (Some (Malformed "{oops")) = Throw "SyntaxError"
  /\ boot (Some (Malformed "{oops")) <> Ok {| page := initial (Some (Malformed "{oops"));
                                              inflight := [] |}.
Proof. split; [reflexivity | discriminate]. Qed.

(** ** The title over whole runs *)

Lemma appendUser_messages_nonempty (cur : string) (um : Message.t) (t : string)
    (c : Conversation.t) :
  Conversation.messages c <> [] \/ Conversation.id c = cur ->
  Conversation.messages (appendUser cur um t c) <> [].
Proof.
  unfold appendUser. destruct (String.eqb (Conversation.id c) cur) eqn:E; simpl.
  - intros _ H. apply app_eq_nil in H. destruct H as [_ H]. discriminate H.
  - intros [H | H]; [exact H |]. apply String.eqb_neq in E. contradiction.
Qed.

Lemma appendFollowUp_messages_nonempty (cur : string) (m : Message.t) (l : string)
    (c : Conversation.t) :
  Conversation.messages c <> [] ->
  Conversation.messages (appendFollowUp cur m l c) <> [].
Proof.
  unfold appendFollowUp. destruct (String.eqb (Conversation.id c) cur); simpl.
  - intros _ H. apply app_eq_nil in H. destruct H as [_ H]. discriminate H.
  - intro H; exact H.
Qed.

Lemma appendUser_titled (cur : string) (clk : Clock) (t : string) (c : Conversation.t) :
  titled c -> titled (appendUser cur (userMessageOf clk t) t c).
Proof.
  unfold titled, appendUser. intro H.
  destruct (String.eqb (Conversation.id c) cur); [| exact H]. simpl.
  destruct (Conversation.messages c); simpl; [reflexivity | exact H].
Qed.

Lemma appendFollowUp_titled (cur : string) (m : Message.t) (l : string)
    (c : Conversation.t) :
  (Conversation.id c = cur -> Conversation.messages c <> []) ->
  titled c -> titled (appendFollowUp cur m l c).
Proof.
  unfold titled, appendFollowUp. intros Hne H.
  destruct (String.eqb (Conversation.id c) cur) eqn:E; [| exact H]. simpl.
  apply String.eqb_eq in E. specialize (Hne E).
  destruct (Conversation.messages c); [contradiction Hne; reflexivity | exact H].
Qed.

Lemma send_keeps_TitleInv (clk : Clock) (t : string) (m : Machine) (st' : State)
    (p : Pending) :
  sendMessage clk t (page m) = (st', Some p) ->
  TitleInv m ->
  TitleInv {| page := saveEffect st'; inflight := inflight m ++ [p] |}.
Proof.
  intros H [Ht Hp]. apply sendMessage_inv in H.
  destruct H as [_ [cur [_ [_ [Hst' Hpd]]]]].
  assert (Hcap : captured_id p = cur) by (subst p; reflexivity).
  unfold TitleInv. cbn [page inflight]. rewrite saveEffect_conversations.
  subst st'. cbn [conversations setInputValue setConversations]. split.
  - apply Forall_forall. intros c' Hin. apply in_map_iff in Hin.
    destruct Hin as [c [Hc Hin]]. subst c'. apply appendUser_titled.
    rewrite Forall_forall in Ht. apply Ht. exact Hin.
  - intros p' c' Hp' Hin Hid. apply in_map_iff in Hin.
    destruct Hin as [c [Hc Hin]]. subst c'. rewrite appendUser_id in Hid.
    apply appendUser_messages_nonempty.
    apply in_app_or in Hp'. destruct Hp' as [Hp' | [Hp' | []]].
    + left. exact (Hp p' c Hp' Hin Hid).
    + right. subst p'. rewrite Hid. exact Hcap.
Qed.

Lemma in_remove_nth {A : Type} (n : nat) (l : list A) (x : A) :
  In x (remove_nth n l) -> In x l.
Proof.
  revert n. induction l as [|a l IH]; intros n H.
  - destruct n; exact H.
  - destruct n; simpl in H.
    + right. exact H.
    + destruct H as [H | H]; [left; exact H | right; exact (IH n H)].
Qed.

Lemma step_keeps_TitleInv (e : Event) (m : Machine) :
  fresh e m -> TitleInv m -> TitleInv (step e m).
Proof.
  intros Hf Hinv. pose proof Hinv as [Ht Hp].
  destruct e as [clk | i | v | i | clk ev | clk t | n clk r]; cbn [step].
  - destruct Hf as [_ Hf]. unfold TitleInv. cbn [page inflight].
    rewrite saveEffect_conversations. split.
    + constructor; [reflexivity | exact Ht].
    + intros p c Hin [Hc | Hc] Hid.
      * exfalso. apply Hf. subst c. simpl in Hid. rewrite Hid.
        apply in_map. exact Hin.
      * exact (Hp p c Hin Hc Hid).
  - destruct (existsb _ _); exact Hinv.
  - destruct (operable _ _); exact Hinv.
  - unfold TitleInv. cbn [page inflight]. rewrite saveEffect_conversations.
    assert (Hc : conversations (deleteConversation i (page m))
                 = filter (fun c => negb (String.eqb (Conversation.id c) i))
                          (conversations (page m))).
    { unfold deleteConversation. destruct (currentConversationId (page m));
        [destruct (String.eqb _ i) |]; reflexivity. }
    rewrite Hc. split.
    + apply Forall_forall. intros c Hin. apply filter_In in Hin.
      rewrite Forall_forall in Ht. apply Ht. apply Hin.
    + intros p c Hin Hcin Hid. apply filter_In in Hcin.
      exact (Hp p c Hin (proj1 Hcin) Hid).
  - destruct (dispatch clk ev (page m)) as [st' [p|]] eqn:E; cbn [started];
      [| exact Hinv].
    apply dispatch_is_sendMessage in E. destruct E as [t E].
    eapply send_keeps_TitleInv; eassumption.
  - destruct (sendMessage clk t (page m)) as [st' [p|]] eqn:E; cbn [started];
      [| exact Hinv].
    eapply send_keeps_TitleInv; eassumption.
  - destruct (nth_error (inflight m) n) as [p|] eqn:E; [| exact Hinv].
    apply nth_error_In in E.
    unfold TitleInv. cbn [page inflight].
    rewrite saveEffect_conversations, resume_conversations. split.
    + apply Forall_forall. intros c' Hin. apply in_map_iff in Hin.
      destruct Hin as [c [Hc Hin]]. subst c'. apply appendFollowUp_titled.
      * intro Hid. exact (Hp p c E Hin Hid).
      * rewrite Forall_forall in Ht. apply Ht. exact Hin.
    + intros p' c' Hp' Hin Hid. apply in_map_iff in Hin.
      destruct Hin as [c [Hc Hin]]. subst c'. rewrite appendFollowUp_id in Hid.
      apply appendFollowUp_messages_nonempty.
      apply in_remove_nth in Hp'. exact (Hp p' c Hp' Hin Hid).
Qed.

Lemma run_keeps_TitleInv (es : list Event) (m : Machine) :
  fresh_run es m -> TitleInv m -> TitleInv (run es m).
Proof.
  revert m. induction es as [|e es IH]; intros m Hf Hinv; simpl.
  - exact Hinv.
  - destruct Hf as [Hf Hfs]. apply IH; [exact Hfs |].
    apply step_keeps_TitleInv; assumption.
Qed.

Lemma start_TitleInv : TitleInv start.
Proof. split; [constructor | intros p c []]. Qed.

(** C8: in every state the page reaches from an empty store, each
    conversation is titled "New Conversation" while it has no message and
    by the first 50 characters of its first message once it has one; a
    send accepted there sets the title of an empty conversation it
    reaches from the text and keeps the title of every conversation that
    already has messages; a pending send that resumes there changes no
    title, and the conversations it reaches already have a message. *)
Theorem title_lifecycle (es : list Event) :
  fresh_run es start ->
  Forall titled (conversations (page (run es start)))
  /\ (forall clk messageText st' p,
        sendMessage clk messageText (page (run es start)) = (st', Some p) ->
        forall k c,
          nth_error (conversations (page (run es start))) k = Some c ->
          exists c',
            nth_error (conversations st') k = Some c'
            /\ (Conversation.id c = captured_id p ->
                Conversation.messages c = [] ->
                Conversation.title c = "New Conversation"
                /\ Conversation.title c' = JsString.slice0 50 messageText
                /\ Conversation.messages c' = [userMessageOf clk messageText])
            /\ (Conversation.messages c <> [] ->
                Conversation.title c' = Conversation.title c)
            /\ (Conversation.id c <> captured_id p -> c' = c))
  /\ (forall n p clk r,
        nth_error (inflight (run es start)) n = Some p ->
        forall k c,
          nth_error (conversations (page (run es start))) k = Some c ->
          exists c',
            nth_error (conversations (page (step (Settle n clk r) (run es start)))) k
            = Some c'
            /\ Conversation.title c' = Conversation.title c
            /\ (Conversation.id c = captured_id p -> Conversation.messages c <> [])).
Proof.
  intro Hf.
  destruct (@run_keeps_TitleInv es start Hf start_TitleInv) as [Ht Hp].
  split; [exact Ht |]. split.
  - intros clk messageText st' p H k c Hk.
    destruct (@title_per_append _ _ _ _ _ H) as [_ [Hu _]].
    destruct (Hu k c Hk) as [c' [Hk' [H1 [H2 H3]]]].
    exists c'. split; [exact Hk' |]. split; [| split; assumption].
    intros Hid He. destruct (H1 Hid He) as [Ha Hb].
    split; [| split; assumption].
    rewrite Forall_forall in Ht. apply nth_error_In in Hk.
    specialize (Ht c Hk). unfold titled in Ht. rewrite He in Ht. exact Ht.
  - intros n p clk r Hn k c Hk. cbn [step]. rewrite Hn. cbn [page].
    rewrite saveEffect_conversations, resume_conversations, nth_error_map, Hk.
    simpl. eexists. split; [reflexivity |]. split.
    + unfold appendFollowUp. destruct (String.eqb _ _); reflexivity.
    + intro Hid. apply nth_error_In in Hn, Hk. exact (Hp p c Hn Hk Hid).
Qed.

(** ** The theorems at the sample send *)

Lemma sample_send_accepted :
  sendMessage t3 "And now?" st_two = (st_three, Some pending_two).
Proof. vm_compute. reflexivity. Defined.

Lemma context_from_prior_history_witness :
  sendMessage t3 "And now?" st_two = (st_three, Some pending_two)
  /\ message (request pending_two) = buildContext (historyOf st_two) "And now?".
Proof.
  split; [exact sample_send_accepted |].
  exact (proj1 (@context_from_prior_history t3 "And now?" st_two st_three pending_two
                  sample_send_accepted)).
Defined.

Lemma follow_up_targets_captured_id_witness :
  sendMessage t3 "And now?" st_two = (st_three, Some pending_two)
  /\ currentConversationId st_two = Some (captured_id pending_two).
Proof.
  split; [exact sample_send_accepted |].
  exact (proj1 (@follow_up_targets_captured_id t3 "And now?" st_two st_three pending_two
                  sample_send_accepted)).
Defined.

Lemma busy_flag_released_witness :
  sendMessage t3 "And now?" (page m_two) = (st_three, Some pending_two)
  /\ isLoading (page (step (SendMessage t3 "And now?") m_two)) = true.
Proof.
  split; [exact sample_send_accepted |].
  exact (proj1 (@busy_flag_released t3 "And now?" m_two st_three pending_two
                  sample_send_accepted)).
Defined.

Lemma preview_after_append_witness :
  sendMessage t3 "And now?" st_two = (st_three, Some pending_two)
  /\ Forall (fun c => Conversation.id c = captured_id pending_two -> mirror c)
            (conversations st_three).
Proof.
  split; [exact sample_send_accepted |].
  apply Forall_forall. intros c Hin.
  exact (proj1 (proj2 preview_after_append) t3 "And now?" st_two st_three pending_two
           sample_send_accepted c Hin).
Defined.

Lemma sample_run_fresh :
  fresh_run [NewChat t0; SendMessage t1 "Hi"; Settle 0 t2 (Answered "Hello!")] start.
Proof.
  simpl. repeat split; intro H; exact H.
Defined.

Lemma title_lifecycle_witness :
  fresh_run [NewChat t0; SendMessage t1 "Hi"; Settle 0 t2 (Answered "Hello!")] start
  /\ Forall titled (conversations (page m_two)).
Proof.
  split; [exact sample_run_fresh |].
  exact (proj1 (title_lifecycle
                  [NewChat t0; SendMessage t1 "Hi"; Settle 0 t2 (Answered "Hello!")]
                  sample_run_fresh)).
Defined.

Lemma one_message_per_carrier_witness :
  sendMessage t3 "And now?" st_two = (st_three, Some pending_two)
  /\ messageCount (conversations st_three)
     = messageCount (conversations st_two)
       + carriers (captured_id pending_two) (conversations st_two).
Proof.
  split; [exact sample_send_accepted |].
  exact (proj1 (@one_message_per_carrier t3 "And now?" st_two st_three pending_two
                  sample_send_accepted)).
Defined.

Lemma write_through_unless_empty_witness :
  mutation (DeleteConversation "1700000000000") m_two = true
  /\ (conversations (page (step (DeleteConversation "1700000000000") m_two)) = [] ->
      localStorage (page (step (DeleteConversation "1700000000000") m_two))
      = localStorage (page m_two)).
Proof.
  split; [reflexivity |].
  exact (proj2 (write_through_unless_empty (DeleteConversation "1700000000000") m_two
                  eq_refl)).
Defined.

Lemma busy_guard_is_at_call_sites_witness :
  isLoading st_three = true
  /\ forall clk ev, dispatch clk ev st_three = (st_three, None).
Proof.
  assert (H : isLoading st_three = true) by (vm_compute; reflexivity).
  split; [exact H |].
  exact (proj1 (busy_guard_is_at_call_sites st_three H)).
Defined.

(** * Further properties of the page *)

(** ** The guard of sendMessage *)

Lemma trimStart_blank (s : string) :
  blank (JsString.trimStart s) = blank s.
Proof.
  induction s as [|c s IH]; simpl.
  - reflexivity.
  - destruct (JsString.is_ws c) eqn:E; simpl.
    + exact IH.
    + rewrite E. reflexivity.
Qed.

Lemma trimEnd_truthy (s : string) :
  JsString.truthy (JsString.trimEnd s) = negb (blank s).
Proof.
  induction s as [|c s IH]; simpl.
  - reflexivity.
  - destruct (JsString.trimEnd s) eqn:E; simpl in *.
    + destruct (JsString.is_ws c); simpl; [exact IH | reflexivity].
    + destruct (blank s); [discriminate IH |]. rewrite andb_false_r. reflexivity.
Qed.

Lemma trim_truthy (s : string) :
  JsString.truthy (JsString.trim s) = negb (blank s).
Proof. unfold JsString.trim. rewrite trimEnd_truthy, trimStart_blank. reflexivity. Qed.

(** X1: sendMessage declines exactly when the text is white space only
    (the empty text included) or no conversation is selected (no id, or
    the empty id); when it declines, the state is what it was: no message
    is appended, the busy flag is not raised, the input is not cleared. *)
Theorem sendMessage_declines_iff (clk : Clock) (messageText : string) (st : State) :
  (snd (sendMessage clk messageText st) = None
   <-> blank messageText = true
       \/ currentConversationId st = None
       \/ currentConversationId st = Some "")
  /\ (snd (sendMessage clk messageText st) = None ->
      fst (sendMessage clk messageText st) = st).
Proof.
  unfold sendMessage. rewrite trim_truthy, negb_involutive.
  destruct (blank messageText).
  - simpl. split; [| reflexivity]. split; [intros _; left; reflexivity | reflexivity].
  - destruct (currentConversationId st) as [cur|]; simpl.
    + destruct cur as [|a cur]; simpl.
      * split; [| reflexivity].
        split; [intros _; right; right; reflexivity | reflexivity].
      * split; [| discriminate].
        split; [discriminate |]. intros [H | [H | H]]; discriminate H.
    + split; [| reflexivity].
      split; [intros _; right; left; reflexivity | reflexivity].
Qed.

(** ** Controls *)

Lemma busy_dispatch_starts_nothing (clk : Clock) (ev : UIEvent) (st st' : State) (p : Pending) :
  isLoading st = true -> dispatch clk ev st = (st', Some p) -> False.
Proof.
  intros Hb H.
  assert (Hd : dispatch clk ev st = (st, None)).
  { unfold dispatch. destruct ev; rewrite busy_not_operable by exact Hb; reflexivity. }
  rewrite Hd in H. discriminate H.
Qed.

(** X2: a gesture starts a send only while the busy flag is down, and
    what it passes to sendMessage is the content of the input, which is
    then not blank, or one of the starter prompts; the send leaves the
    input empty and the flag up. *)
Theorem gesture_sends_input_or_prompt
    (clk : Clock) (ev : UIEvent) (st st' : State) (p : Pending) :
  dispatch clk ev st = (st', Some p) ->
  isLoading st = false
  /\ (exists messageText,
        sendMessage clk messageText st = (st', Some p)
        /\ ((messageText = inputValue st /\ blank messageText = false)
            \/ In messageText STARTER_PROMPTS))
  /\ inputValue st' = ""
  /\ isLoading st' = true.
Proof.
  intro H.
  assert (Hidle : isLoading st = false).
  { destruct (isLoading st) eqn:E; [| reflexivity].
    destruct (@busy_dispatch_starts_nothing clk ev st st' p E H). }
  split; [exact Hidle |].
  assert (Ht : exists messageText,
             sendMessage clk messageText st = (st', Some p)
             /\ ((messageText = inputValue st /\ blank messageText = false)
                 \/ In messageText STARTER_PROMPTS)).
  { revert H. unfold dispatch, handleKeyDown, handleSubmit.
    destruct ev as [|key shiftKey|idx].
    - destruct (operable SubmitButton st); [| discriminate].
      rewrite trim_truthy. destruct (blank (inputValue st)) eqn:B; [discriminate |].
      intro H. exists (inputValue st). split; [exact H | left; split; reflexivity || exact B].
    - destruct (operable MessageInput st); [| discriminate].
      rewrite trim_truthy.
      destruct (String.eqb key "Enter" && negb shiftKey)%bool.
      + destruct (blank (inputValue st)) eqn:B; [discriminate |].
        intro H. exists (inputValue st).
        split; [exact H | left; split; reflexivity || exact B].
      + destruct (String.eqb key "Enter" && operable SubmitButton st)%bool;
          [| discriminate].
        destruct (blank (inputValue st)) eqn:B; [discriminate |].
        intro H. exists (inputValue st).
        split; [exact H | left; split; reflexivity || exact B].
    - destruct (operable (StarterPrompt idx) st) eqn:O; [| discriminate].
      intro H. exists (nth idx STARTER_PROMPTS ""). split; [exact H |].
      right. apply nth_In.
      unfold operable, rendered in O.
      apply andb_prop in O. destruct O as [O _].
      apply andb_prop in O. destruct O as [_ O].
      apply Nat.ltb_lt in O. exact O. }
  split; [exact Ht |].
  destruct Ht as [t [E _]]. apply sendMessage_inv in E.
  destruct E as [_ [cur [_ [_ [Hst' _]]]]]. subst st'. split; reflexivity.
Qed.

(** ** Creating and deleting conversations *)

Lemma deleteConversation_conversations (i : string) (st : State) :
  conversations (deleteConversation i st)
  = filter (fun c => negb (String.eqb (Conversation.id c) i)) (conversations st).
Proof.
  unfold deleteConversation. destruct (currentConversationId st);
    [destruct (String.eqb _ i) |]; reflexivity.
Qed.

Lemma filter_absent_id (i : string) (cs : list Conversation.t) :
  ~ In i (map Conversation.id cs) ->
  filter (fun c => negb (String.eqb (Conversation.id c) i)) cs = cs.
Proof.
  induction cs as [|c cs IH]; simpl; intro H.
  - reflexivity.
  - destruct (String.eqb (Conversation.id c) i) eqn:E; simpl.
    + apply String.eqb_eq in E. exfalso. apply H. left. exact E.
    + rewrite IH; [reflexivity |]. intro Hin. apply H. right. exact Hin.
Qed.

Lemma filter_id_twice (i : string) (cs : list Conversation.t) :
  let keep := fun c => negb (String.eqb (Conversation.id c) i) in
  filter keep (filter keep cs) = filter keep cs.
Proof.
  simpl. induction cs as [|c cs IH]; simpl.
  - reflexivity.
  - destruct (String.eqb (Conversation.id c) i) eqn:E; simpl.
    + exact IH.
    + rewrite E. simpl. rewrite IH. reflexivity.
Qed.

Lemma head_of_kept (i : string) (cs : list Conversation.t) (c : Conversation.t)
    (rest : list Conversation.t) :
  filter (fun c => negb (String.eqb (Conversation.id c) i)) cs = c :: rest ->
  String.eqb (Conversation.id c) i = false.
Proof.
  intro H.
  assert (Hin : In c (filter (fun c => negb (String.eqb (Conversation.id c) i)) cs))
    by (rewrite H; left; reflexivity).
  apply filter_In in Hin. destruct Hin as [_ Hin].
  apply negb_true_iff in Hin. exact Hin.
Qed.

Lemma deleteConversation_noop (i : string) (d : State) :
  filter (fun c => negb (String.eqb (Conversation.id c) i)) (conversations d)
  = conversations d ->
  (forall cur, currentConversationId d = Some cur -> String.eqb cur i = false) ->
  deleteConversation i d = d.
Proof.
  intros Hf Hs. unfold deleteConversation. rewrite Hf.
  destruct d as [cs sel inp busy sto]. simpl in *.
  destruct sel as [cur|]; [| reflexivity].
  rewrite (Hs cur eq_refl). reflexivity.
Qed.

(** X3: deleteConversation removes every conversation carrying the id
    and nothing else, keeping the order of the rest; no conversation of
    that id is left, and deleting the same id a second time changes
    nothing, the selection included. *)
Theorem deleteConversation_removes_id (i : string) (st : State) :
  ~ In i (map Conversation.id (conversations (deleteConversation i st)))
  /\ (forall c, In c (conversations (deleteConversation i st))
                <-> In c (conversations st) /\ Conversation.id c <> i)
  /\ deleteConversation i (deleteConversation i st) = deleteConversation i st.
Proof.
  split; [| split].
  - rewrite deleteConversation_conversations. intro Hin.
    apply in_map_iff in Hin. destruct Hin as [c [Hid Hin]].
    apply filter_In in Hin. destruct Hin as [_ Hk].
    apply negb_true_iff in Hk. apply String.eqb_neq in Hk. contradiction.
  - intro c. rewrite deleteConversation_conversations, filter_In, negb_true_iff.
    rewrite String.eqb_neq. reflexivity.
  - apply deleteConversation_noop.
    + rewrite deleteConversation_conversations. apply filter_id_twice.
    + intro cur. unfold deleteConversation.
      destruct (currentConversationId st) as [cur0|] eqn:Ec.
      * destruct (String.eqb cur0 i) eqn:E; simpl.
        -- destruct (filter _ (conversations st)) as [|c rest] eqn:Ef;
             [discriminate |].
           intro H. inversion H; subst cur. exact (head_of_kept _ _ Ef).
        -- rewrite Ec. intro H. inversion H; subst cur. exact E.
      * simpl. rewrite Ec. discriminate.
Qed.

(** X4: deleting an id that no conversation carries leaves the whole
    state as it is, provided the selection names a conversation of the
    collection or is empty. *)
Theorem deleteConversation_absent_id (i : string) (st : State) :
  ~ In i (map Conversation.id (conversations st)) ->
  selection_valid st ->
  deleteConversation i st = st.
Proof.
  intros Habs Hsel. apply deleteConversation_noop.
  - exact (filter_absent_id _ _ Habs).
  - intros cur Ec. unfold selection_valid in Hsel. rewrite Ec in Hsel.
    apply String.eqb_neq. intro E. subst cur. contradiction.
Qed.

(** X5: a new conversation whose id is not yet in the collection,
    deleted again, gives back the collection as it was; the selection
    does not return to the conversation that was active before but moves
    to the head of the collection, and the input has been cleared. *)
Theorem create_then_delete (clk : Clock) (st : State) :
  ~ In (JsString.of_Z (now clk)) (map Conversation.id (conversations st)) ->
  let st' := deleteConversation (JsString.of_Z (now clk))
               (createNewConversation clk st) in
  conversations st' = conversations st
  /\ currentConversationId st'
     = option_map Conversation.id (hd_error (conversations st))
  /\ inputValue st' = ""
  /\ isLoading st' = isLoading st
  /\ localStorage st' = localStorage st.
Proof.
  intro Hfresh. cbv zeta.
  unfold deleteConversation, createNewConversation.
  cbn [currentConversationId conversations setInputValue setCurrentConversationId
       setConversations Conversation.id filter].
  rewrite String.eqb_refl. cbn [negb].
  rewrite (filter_absent_id _ _ Hfresh).
  destruct (conversations st) as [|c cs]; repeat split.
Qed.

(** ** States the page reaches *)

Lemma run_invariant (P : Machine -> Prop) :
  (forall e m, P m -> P (step e m)) ->
  forall es m, P m -> P (run es m).
Proof.
  intros Hstep es. induction es as [|e es IH]; intros m H; simpl.
  - exact H.
  - apply IH. apply Hstep. exact H.
Qed.

Lemma map_id_appendUser (cur : string) (um : Message.t) (t : string)
    (cs : list Conversation.t) :
  map Conversation.id (map (appendUser cur um t) cs) = map Conversation.id cs.
Proof.
  rewrite map_map. apply map_ext. intro c. apply appendUser_id.
Qed.

Lemma map_id_appendFollowUp (cur : string) (m : Message.t) (l : string)
    (cs : list Conversation.t) :
  map Conversation.id (map (appendFollowUp cur m l) cs) = map Conversation.id cs.
Proof.
  rewrite map_map. apply map_ext. intro c. apply appendFollowUp_id.
Qed.

(** What a successful start leaves: nothing pending, the flag down, and
    either an empty collection with no selection or the stored
    collection with its head selected. *)
Lemma boot_inv (stored : option Blob) (m : Machine) :
  boot stored = Ok m ->
  inflight m = []
  /\ isLoading (page m) = false
  /\ localStorage (page m) = stored
  /\ ((conversations (page m) = [] /\ currentConversationId (page m) = None)
      \/ (exists c cs,
            stored = Some (Serialized (c :: cs))
            /\ conversations (page m) = c :: cs
            /\ currentConversationId (page m) = Some (Conversation.id c))).
Proof.
  unfold boot, mount, loadEffect. simpl.
  destruct stored as [[cs | raw] |]; simpl.
  - destruct cs as [|c cs]; simpl; intro H; inversion H; subst m; simpl.
    + repeat split. left. split; reflexivity.
    + repeat split. right. exists c, cs. repeat split.
  - destruct raw; simpl; intro H; inversion H; subst m; simpl.
    repeat split. left. split; reflexivity.
  - intro H; inversion H; subst m; simpl. repeat split. left. split; reflexivity.
Qed.

Lemma sendMessage_selection (clk : Clock) (t : string) (st st' : State) (p : Pending) :
  sendMessage clk t st = (st', Some p) ->
  currentConversationId st' = currentConversationId st
  /\ map Conversation.id (conversations st') = map Conversation.id (conversations st).
Proof.
  intro H. apply sendMessage_inv in H. destruct H as [_ [cur [_ [_ [Hst' _]]]]].
  subst st'. simpl. split; [reflexivity | apply map_id_appendUser].
Qed.

Lemma step_keeps_selection_valid (e : Event) (m : Machine) :
  selection_valid (page m) -> selection_valid (page (step e m)).
Proof.
  intro H. unfold selection_valid in *.
  assert (Hsend : forall clk t st' p,
             sendMessage clk t (page m) = (st', Some p) ->
             match currentConversationId (saveEffect st') with
             | Some i => In i (map Conversation.id (conversations (saveEffect st')))
             | None => True
             end).
  { intros clk t st' p E. rewrite saveEffect_selection, saveEffect_conversations.
    destruct (sendMessage_selection _ _ _ E) as [Hs Hi]. rewrite Hs, Hi. exact H. }
  destruct e as [clk | i | v | i | clk ev | clk t | n clk r]; cbn [step].
  - cbn [page]. rewrite saveEffect_selection, saveEffect_conversations.
    simpl. left. reflexivity.
  - destruct (existsb _ _) eqn:E; [| exact H]. simpl.
    apply existsb_exists in E. destruct E as [c [Hin Hid]].
    apply String.eqb_eq in Hid. subst i. apply in_map. exact Hin.
  - destruct (operable _ _); exact H.
  - cbn [page]. rewrite saveEffect_selection, saveEffect_conversations.
    rewrite deleteConversation_conversations. unfold deleteConversation.
    destruct (currentConversationId (page m)) as [cur|] eqn:Ec.
    + destruct (String.eqb cur i) eqn:E; simpl.
      * destruct (filter _ (conversations (page m))) as [|c rest]; [exact I |].
        left. reflexivity.
      * rewrite Ec. apply in_map_iff in H. destruct H as [c [Hid Hin]].
        apply in_map_iff. exists c. split; [exact Hid |].
        apply filter_In. split; [exact Hin |].
        apply negb_true_iff. rewrite Hid. exact E.
    + simpl. rewrite Ec. exact I.
  - destruct (dispatch clk ev (page m)) as [st' [p|]] eqn:E; cbn [started page];
      [| exact H].
    apply dispatch_is_sendMessage in E. destruct E as [t E].
    exact (Hsend _ _ _ _ E).
  - destruct (sendMessage clk t (page m)) as [st' [p|]] eqn:E; cbn [started page];
      [| exact H].
    exact (Hsend _ _ _ _ E).
  - destruct (nth_error (inflight m) n) as [p|]; [| exact H]. cbn [page].
    rewrite saveEffect_selection, saveEffect_conversations.
    rewrite resume_selection, resume_conversations, map_id_appendFollowUp. exact H.
Qed.

Lemma boot_selection_valid (stored : option Blob) (m : Machine) :
  boot stored = Ok m -> selection_valid (page m).
Proof.
  intro H. apply boot_inv in H. destruct H as [_ [_ [_ [[_ Hn] | [c [cs [_ [Hc Hs]]]]]]]];
    unfold selection_valid.
  - rewrite Hn. exact I.
  - rewrite Hs, Hc. left. reflexivity.
Qed.

(** X6: once the page has started, from whatever storage it could start
    on, the selection is at every moment empty or the id of a
    conversation that is in the collection, so that the current
    conversation is found whenever an id is selected. *)
Theorem selection_always_valid (stored : option Blob) (m : Machine) (es : list Event) :
  boot stored = Ok m ->
  selection_valid (page (run es m))
  /\ (forall i, currentConversationId (page (run es m)) = Some i ->
        exists c, currentConversation (page (run es m)) = Some c
                  /\ Conversation.id c = i).
Proof.
  intro Hb.
  assert (Hv : selection_valid (page (run es m))).
  { apply (run_invariant (fun m => selection_valid (page m))).
    - apply step_keeps_selection_valid.
    - exact (boot_selection_valid _ Hb). }
  split; [exact Hv |].
  intros i Hi. unfold selection_valid in Hv. unfold currentConversation.
  rewrite Hi in *. apply in_map_iff in Hv. destruct Hv as [c [Hid Hin]].
  destruct (find (fun c0 => String.eqb (Conversation.id c0) i)
                 (conversations (page (run es m)))) as [c1|] eqn:Ef.
  - exists c1. split; [reflexivity |].
    apply find_some in Ef. apply String.eqb_eq. apply Ef.
  - exfalso. apply (find_none _ _ Ef) in Hin.
    rewrite Hid, String.eqb_refl in Hin. discriminate Hin.
Qed.

(** ** Storage over whole runs *)

Lemma boot_serialized (cs : list Conversation.t) :
  exists m', boot (Some (Serialized cs)) = Ok m'
             /\ conversations (page m') = cs
             /\ currentConversationId (page m')
                = option_map Conversation.id (hd_error cs)
             /\ inflight m' = []
             /\ isLoading (page m') = false.
Proof.
  destruct cs as [|c cs]; eexists; (split; [reflexivity |]); repeat split.
Qed.

Lemma saved_StorageInv (st : State) (fl : list Pending) :
  (exists m', boot (localStorage st) = Ok m') ->
  StorageInv {| page := saveEffect st; inflight := fl |}.
Proof.
  intro Hb. unfold StorageInv. cbn [page].
  rewrite saveEffect_conversations. split.
  - apply saveEffect_spec.
  - destruct (conversations st) as [|c cs] eqn:E.
    + rewrite (proj2 (saveEffect_spec st) E). exact Hb.
    + assert (Hne : conversations st <> []) by (rewrite E; discriminate).
      rewrite (proj1 (saveEffect_spec st) Hne).
      destruct (boot_serialized (conversations st)) as [m' [Hm' _]].
      exists m'. exact Hm'.
Qed.

Lemma step_keeps_StorageInv (e : Event) (m : Machine) :
  StorageInv m -> StorageInv (step e m).
Proof.
  intros [Hs Hb].
  destruct e as [clk | i | v | i | clk ev | clk t | n clk r]; cbn [step].
  - apply saved_StorageInv. exact Hb.
  - destruct (existsb _ _); split; assumption.
  - destruct (operable _ _); split; assumption.
  - apply saved_StorageInv. rewrite deleteConversation_storage. exact Hb.
  - destruct (dispatch clk ev (page m)) as [st' [p|]] eqn:E; cbn [started];
      [| split; assumption].
    apply saved_StorageInv.
    apply dispatch_is_sendMessage in E. destruct E as [t E].
    pose proof (sendMessage_storage clk t (page m)) as H. rewrite E in H.
    simpl in H. rewrite H. exact Hb.
  - destruct (sendMessage clk t (page m)) as [st' [p|]] eqn:E; cbn [started];
      [| split; assumption].
    apply saved_StorageInv.
    pose proof (sendMessage_storage clk t (page m)) as H. rewrite E in H.
    simpl in H. rewrite H. exact Hb.
  - destruct (nth_error (inflight m) n) as [p|]; [| split; assumption].
    apply saved_StorageInv. rewrite resume_storage. exact Hb.
Qed.

Lemma boot_StorageInv (stored : option Blob) (m : Machine) :
  boot stored = Ok m -> StorageInv m.
Proof.
  intro H. pose proof (boot_inv _ H) as [_ [_ [Hsto Hc]]].
  unfold StorageInv. rewrite Hsto. split.
  - destruct Hc as [[He _] | [c [cs [Hst [Hcs _]]]]].
    + intro Hne. contradiction.
    + intros _. rewrite Hcs, Hst. reflexivity.
  - exists m. exact H.
Qed.

(** X7: once the page has started, whenever the collection is not empty
    the stored text is the serialisation of exactly that collection,
    whatever events have happened. *)
Theorem storage_mirrors_collection (stored : option Blob) (m : Machine) (es : list Event) :
  boot stored = Ok m ->
  conversations (page (run es m)) <> [] ->
  localStorage (page (run es m))
  = Some (JSON_stringify (conversations (page (run es m)))).
Proof.
  intros Hb.
  apply (run_invariant StorageInv step_keeps_StorageInv es m (boot_StorageInv _ Hb)).
Qed.

(** X8: the page never leaves a stored text it cannot start on again;
    and a page started on the text left by a state with a collection that
    is not empty has that collection, selects its head, whatever was
    selected before, has the busy flag down and no pending send. *)
Theorem reload_restores_collection (stored : option Blob) (m : Machine) (es : list Event) :
  boot stored = Ok m ->
  (exists m', boot (localStorage (page (run es m))) = Ok m')
  /\ (conversations (page (run es m)) <> [] ->
      exists m',
        boot (localStorage (page (run es m))) = Ok m'
        /\ conversations (page m') = conversations (page (run es m))
        /\ currentConversationId (page m')
           = option_map Conversation.id (hd_error (conversations (page (run es m))))
        /\ inflight m' = []
        /\ isLoading (page m') = false).
Proof.
  intro Hb.
  destruct (run_invariant StorageInv step_keeps_StorageInv es m (boot_StorageInv _ Hb))
    as [Hs Hm].
  split; [exact Hm |].
  intro Hne. rewrite (Hs Hne). apply boot_serialized.
Qed.

Lemma run_storage_sync (stored : option Blob) (m : Machine) (es : list Event) :
  boot stored = Ok m ->
  conversations (page (run es m)) <> [] ->
  localStorage (page (run es m))
  = Some (JSON_stringify (conversations (page (run es m)))).
Proof.
  intros Hb.
  apply (run_invariant StorageInv step_keeps_StorageInv es m (boot_StorageInv _ Hb)).
Qed.

Lemma run_selection_valid (stored : option Blob) (m : Machine) (es : list Event) :
  boot stored = Ok m -> selection_valid (page (run es m)).
Proof.
  intro Hb. apply (run_invariant (fun m => selection_valid (page m))).
  - apply step_keeps_selection_valid.
  - exact (boot_selection_valid _ Hb).
Qed.

(** X9: deleting the only conversation does not survive a reload: the
    collection becomes empty, nothing is written, and a page started on
    the stored text has the deleted conversation again, selected. *)
Theorem last_delete_undone_by_reload
    (stored : option Blob) (m : Machine) (es : list Event) (c : Conversation.t) :
  boot stored = Ok m ->
  conversations (page (run es m)) = [c] ->
  let after := step (DeleteConversation (Conversation.id c)) (run es m) in
  conversations (page after) = []
  /\ currentConversationId (page after) = None
  /\ exists m',
       boot (localStorage (page after)) = Ok m'
       /\ conversations (page m') = [c]
       /\ currentConversationId (page m') = Some (Conversation.id c).
Proof.
  intros Hb Hc. cbv zeta.
  assert (Hne : conversations (page (run es m)) <> []) by (rewrite Hc; discriminate).
  pose proof (@run_storage_sync stored m es Hb Hne) as Hs.
  pose proof (@run_selection_valid stored m es Hb) as Hv.
  cbn [step page].
  assert (Hd : conversations (deleteConversation (Conversation.id c) (page (run es m)))
               = []).
  { rewrite deleteConversation_conversations, Hc. simpl.
    rewrite String.eqb_refl. reflexivity. }
  rewrite saveEffect_conversations, saveEffect_selection, Hd.
  split; [reflexivity |]. split.
  - unfold selection_valid in Hv. unfold deleteConversation.
    destruct (currentConversationId (page (run es m))) as [cur|] eqn:Ec.
    + rewrite Hc in Hv. simpl in Hv. destruct Hv as [Hv | []]. subst cur.
      rewrite String.eqb_refl, Hc. simpl. rewrite String.eqb_refl. reflexivity.
    + simpl. exact Ec.
  - rewrite (proj2 (saveEffect_spec _) Hd), deleteConversation_storage, Hs, Hc.
    eexists. split; [reflexivity |]. split; reflexivity.
Qed.

(** ** What the conversations of a run look like *)

(** The conversations after a step: those before it, with a new one in
    front, with some removed, or with a message appended to those of one
    id by an accepted send or by a resumed one. *)
Lemma step_conversations (e : Event) (m : Machine) :
  conversations (page (step e m)) = conversations (page m)
  \/ (exists clk,
        e = NewChat clk
        /\ conversations (page (step e m))
           = {| Conversation.id := JsString.of_Z (now clk);
                Conversation.title := "New Conversation";
                Conversation.messages := [];
                Conversation.createdAt := iso clk;
                Conversation.lastMessage := "" |} :: conversations (page m))
  \/ (exists i,
        e = DeleteConversation i
        /\ conversations (page (step e m))
           = filter (fun c => negb (String.eqb (Conversation.id c) i))
                    (conversations (page m)))
  \/ (exists clk t st' p,
        sendMessage clk t (page m) = (st', Some p)
        /\ blank t = false
        /\ step e m = {| page := saveEffect st'; inflight := inflight m ++ [p] |}
        /\ conversations (page (step e m))
           = map (appendUser (captured_id p) (userMessageOf clk t) t)
                 (conversations (page m)))
  \/ (exists n clk r p,
        e = Settle n clk r
        /\ nth_error (inflight m) n = Some p
        /\ conversations (page (step e m))
           = map (appendFollowUp (captured_id p) (followUpOf clk r) (previewOf r))
                 (conversations (page m))).
Proof.
  assert (Hsend : forall clk t st' p,
             sendMessage clk t (page m) = (st', Some p) ->
             blank t = false
             /\ conversations (saveEffect st')
                = map (appendUser (captured_id p) (userMessageOf clk t) t)
                      (conversations (page m))).
  { intros clk t st' p E. rewrite saveEffect_conversations.
    apply sendMessage_inv in E. destruct E as [Ht [cur [_ [_ [Hst' Hp]]]]].
    rewrite trim_truthy in Ht. apply negb_true_iff in Ht.
    subst st' p. split; [exact Ht | reflexivity]. }
  destruct e as [clk | i | v | i | clk ev | clk t | n clk r]; cbn [step].
  - right. left. exists clk. split; [reflexivity |]. cbn [page].
    rewrite saveEffect_conversations. reflexivity.
  - left. destruct (existsb _ _); reflexivity.
  - left. destruct (operable _ _); reflexivity.
  - right. right. left. exists i. split; [reflexivity |]. cbn [page].
    rewrite saveEffect_conversations. apply deleteConversation_conversations.
  - destruct (dispatch clk ev (page m)) as [st' [p|]] eqn:E; cbn [started];
      [| left; reflexivity].
    apply dispatch_is_sendMessage in E. destruct E as [t E].
    destruct (Hsend _ _ _ _ E) as [Hb Hc].
    right. right. right. left. exists clk, t, st', p.
    split; [exact E |]. split; [exact Hb |]. split; [reflexivity | exact Hc].
  - destruct (sendMessage clk t (page m)) as [st' [p|]] eqn:E; cbn [started];
      [| left; reflexivity].
    destruct (Hsend _ _ _ _ E) as [Hb Hc].
    right. right. right. left. exists clk, t, st', p.
    split; [exact E |]. split; [exact Hb |]. split; [reflexivity | exact Hc].
  - destruct (nth_error (inflight m) n) as [p|] eqn:E; [| left; reflexivity].
    right. right. right. right. exists n, clk, r, p.
    split; [reflexivity |]. split; [exact E |]. cbn [page].
    rewrite saveEffect_conversations. apply resume_conversations.
Qed.

(** A property of single conversations that new conversations have and
    that both appends keep holds throughout a run. *)
Lemma step_Forall (P : Conversation.t -> Prop) :
  (forall clk, P {| Conversation.id := JsString.of_Z (now clk);
                    Conversation.title := "New Conversation";
                    Conversation.messages := [];
                    Conversation.createdAt := iso clk;
                    Conversation.lastMessage := "" |}) ->
  (forall cur clk t c,
      blank t = false -> P c -> P (appendUser cur (userMessageOf clk t) t c)) ->
  (forall cur clk r c,
      P c -> P (appendFollowUp cur (followUpOf clk r) (previewOf r) c)) ->
  forall e m,
    Forall P (conversations (page m)) -> Forall P (conversations (page (step e m))).
Proof.
  intros Hnew Huser Hfollow e m H.
  destruct (step_conversations e m)
    as [Hc | [[clk [_ Hc]] | [[i [_ Hc]] | [[clk [t [st' [p [_ [Hb [_ Hc]]]]]]]
                                           | [n [clk [r [p [_ [_ Hc]]]]]]]]]];
    rewrite Hc.
  - exact H.
  - constructor; [apply Hnew | exact H].
  - apply Forall_forall. intros c Hin. apply filter_In in Hin.
    rewrite Forall_forall in H. apply H. apply Hin.
  - apply Forall_map. revert H. apply Forall_impl. intro c. apply Huser. exact Hb.
  - apply Forall_map. revert H. apply Forall_impl. intro c. apply Hfollow.
Qed.

(** X10: no step edits or removes a message of a conversation that
    stays: a conversation found after a step is the new, empty one of a
    "New Chat", or it was there before the step with the same id and
    creation time, and its messages are the former ones followed by at
    most one more. *)
Theorem transcripts_append_only (e : Event) (m : Machine) (c' : Conversation.t) :
  In c' (conversations (page (step e m))) ->
  (exists clk, e = NewChat clk /\ Conversation.messages c' = []
               /\ Conversation.id c' = JsString.of_Z (now clk))
  \/ (exists c suffix,
        In c (conversations (page m))
        /\ Conversation.id c' = Conversation.id c
        /\ Conversation.createdAt c' = Conversation.createdAt c
        /\ Conversation.messages c' = (Conversation.messages c ++ suffix)%list
        /\ List.length suffix <= 1).
Proof.
  assert (Hsame : forall c, In c (conversations (page m)) ->
            exists c0 suffix,
              In c0 (conversations (page m))
              /\ Conversation.id c = Conversation.id c0
              /\ Conversation.createdAt c = Conversation.createdAt c0
              /\ Conversation.messages c = (Conversation.messages c0 ++ suffix)%list
              /\ List.length suffix <= 1).
  { intros c Hin. exists c, []. rewrite app_nil_r. repeat split; auto. }
  intro Hin.
  destruct (step_conversations e m)
    as [Hc | [[clk [He Hc]] | [[i [_ Hc]] | [[clk [t [st' [p [_ [_ [_ Hc]]]]]]]
                                            | [n [clk [r [p [_ [_ Hc]]]]]]]]]];
    rewrite Hc in Hin.
  - right. apply Hsame. exact Hin.
  - destruct Hin as [Hin | Hin].
    + left. exists clk. subst c'. repeat split. exact He.
    + right. apply Hsame. exact Hin.
  - right. apply filter_In in Hin. apply Hsame. apply Hin.
  - right. apply in_map_iff in Hin. destruct Hin as [c [Hf Hin]]. subst c'.
    unfold appendUser. destruct (String.eqb _ _).
    + exists c, [userMessageOf clk t]. repeat split; auto.
    + apply Hsame. exact Hin.
  - right. apply in_map_iff in Hin. destruct Hin as [c [Hf Hin]]. subst c'.
    unfold appendFollowUp. destruct (String.eqb _ _).
    + exists c, [followUpOf clk r]. repeat split; auto.
    + apply Hsame. exact Hin.
Qed.

Lemma slice0_length (n : nat) (s : string) :
  String.length (JsString.slice0 n s) <= n.
Proof.
  unfold JsString.slice0. revert s. induction n as [|n IH]; intro s.
  - destruct s; simpl; lia.
  - destruct s as [|c s]; simpl; [lia |]. specialize (IH s). lia.
Qed.

(** X11: from an empty store on, every title in the collection has at
    most 50 characters. *)
Theorem titles_at_most_50 (es : list Event) (c : Conversation.t) :
  In c (conversations (page (run es start))) ->
  String.length (Conversation.title c) <= 50.
Proof.
  revert c. apply Forall_forall.
  apply (run_invariant
           (fun m => Forall (fun c => String.length (Conversation.title c) <= 50)
                            (conversations (page m)))).
  - apply step_Forall.
    + intro clk. simpl. lia.
    + intros cur clk t c _ H. unfold appendUser.
      destruct (String.eqb _ _); [| exact H]. simpl.
      destruct (_ =? 0)%nat; [apply slice0_length | exact H].
    + intros cur clk r c H. unfold appendFollowUp.
      destruct (String.eqb _ _); exact H.
  - constructor.
Qed.

(** X12: from an empty store on, no user message in the collection is
    blank: its text holds a character that is not white space. *)
Theorem user_messages_not_blank (es : list Event) (c : Conversation.t) (msg : Message.t) :
  In c (conversations (page (run es start))) ->
  In msg (Conversation.messages c) ->
  Message.sender msg = user ->
  blank (Message.text msg) = false.
Proof.
  intros Hc. revert msg.
  change ((fun c => forall msg, In msg (Conversation.messages c) ->
                      Message.sender msg = user -> blank (Message.text msg) = false) c).
  revert c Hc. apply Forall_forall.
  apply (run_invariant
           (fun m => Forall (fun c => forall msg, In msg (Conversation.messages c) ->
                               Message.sender msg = user ->
                               blank (Message.text msg) = false)
                            (conversations (page m)))).
  - apply step_Forall.
    + intros clk msg [].
    + intros cur clk t c Hb H msg. unfold appendUser.
      destruct (String.eqb _ _); [| apply H]. simpl. intro Hin.
      apply in_app_or in Hin. destruct Hin as [Hin | [Hin | []]].
      * apply H. exact Hin.
      * subst msg. intros _. exact Hb.
    + intros cur clk r c H msg. unfold appendFollowUp.
      destruct (String.eqb _ _); [| apply H]. simpl. intro Hin.
      apply in_app_or in Hin. destruct Hin as [Hin | [Hin | []]].
      * apply H. exact Hin.
      * subst msg. rewrite followUp_sender. discriminate.
  - constructor.
Qed.

(** ** Sends made through the controls *)

Lemma deleteConversation_isLoading (i : string) (st : State) :
  isLoading (deleteConversation i st) = isLoading st.
Proof.
  unfold deleteConversation. destruct (currentConversationId st) as [cur|]; [| reflexivity].
  destruct (String.eqb cur i); reflexivity.
Qed.

Lemma sendMessage_raises_flag (clk : Clock) (t : string) (st st' : State) (p : Pending) :
  sendMessage clk t st = (st', Some p) -> isLoading st' = true.
Proof.
  intro H. apply sendMessage_inv in H. destruct H as [_ [cur [_ [_ [Hst' _]]]]].
  subst st'. reflexivity.
Qed.

Lemma step_keeps_single_flight (e : Event) (m : Machine) :
  match e with SendMessage _ _ => False | _ => True end ->
  single_flight m -> single_flight (step e m).
Proof.
  intros He H. unfold single_flight in *.
  destruct e as [clk | i | v | i | clk ev | clk t | n clk r]; cbn [step];
    try contradiction.
  - cbn [page inflight]. rewrite saveEffect_isLoading. exact H.
  - destruct (existsb _ _); exact H.
  - destruct (operable _ _); exact H.
  - cbn [page inflight]. rewrite saveEffect_isLoading, deleteConversation_isLoading.
    exact H.
  - destruct (dispatch clk ev (page m)) as [st' [p|]] eqn:E; cbn [started];
      [| exact H].
    cbn [page inflight]. rewrite saveEffect_isLoading. right.
    destruct H as [[_ Hi] | [Hb _]].
    + rewrite Hi. simpl. split; [| exists p; reflexivity].
      apply dispatch_is_sendMessage in E. destruct E as [t E].
      exact (sendMessage_raises_flag _ _ _ E).
    + destruct (busy_dispatch_starts_nothing _ _ _ Hb E).
  - destruct (nth_error (inflight m) n) as [p|] eqn:E; [| exact H].
    cbn [page inflight]. rewrite saveEffect_isLoading, resume_isLoading.
    left. split; [reflexivity |].
    destruct H as [[_ Hi] | [_ [p0 Hi]]]; rewrite Hi in *.
    + destruct n; discriminate E.
    + destruct n as [|n]; [reflexivity |]. destruct n; discriminate E.
Qed.

(** X13: when sendMessage is reached through the controls only, at most
    one send is in flight at any moment, and the busy flag is up exactly
    while one is. *)
Theorem one_send_in_flight (stored : option Blob) (m : Machine) (es : list Event) :
  boot stored = Ok m ->
  by_controls es ->
  List.length (inflight (run es m)) <= 1
  /\ (isLoading (page (run es m)) = true <-> inflight (run es m) <> []).
Proof.
  intros Hb Hc.
  assert (H : single_flight (run es m)).
  { assert (H0 : single_flight m).
    { apply boot_inv in Hb. destruct Hb as [Hi [Hl _]]. left. split; assumption. }
    clear Hb. revert m H0. induction Hc as [|e es He Hes IH]; intros m H0; simpl.
    - exact H0.
    - apply IH. apply step_keeps_single_flight; assumption. }
  destruct H as [[Hl Hi] | [Hl [p Hi]]]; rewrite Hl, Hi; simpl.
  - split; [lia |]. split; [discriminate | intro H; contradiction H; reflexivity].
  - split; [lia |]. split; [discriminate | reflexivity].
Qed.

(** ** Distinct ids *)

Lemma step_keeps_NoDup (e : Event) (m : Machine) :
  fresh e m ->
  NoDup (map Conversation.id (conversations (page m))) ->
  NoDup (map Conversation.id (conversations (page (step e m)))).
Proof.
  intros Hf H.
  destruct (step_conversations e m)
    as [Hc | [[clk [He Hc]] | [[i [_ Hc]] | [[clk [t [st' [p [_ [_ [_ Hc]]]]]]]
                                            | [n [clk [r [p [_ [_ Hc]]]]]]]]]];
    rewrite Hc.
  - exact H.
  - subst e. destruct Hf as [Hf _]. simpl. constructor; assumption.
  - clear Hc. induction (conversations (page m)) as [|c cs IH]; simpl; [constructor |].
    inversion H as [|x xs Hn Hd]; subst.
    destruct (String.eqb (Conversation.id c) i); simpl; [exact (IH Hd) |].
    constructor; [| exact (IH Hd)].
    intro Hin. apply Hn. apply in_map_iff in Hin. destruct Hin as [c0 [Hid Hin]].
    apply filter_In in Hin. apply in_map_iff. exists c0. split; [exact Hid | apply Hin].
  - rewrite map_id_appendUser. exact H.
  - rewrite map_id_appendFollowUp. exact H.
Qed.

Lemma run_keeps_NoDup (es : list Event) (m : Machine) :
  fresh_run es m ->
  NoDup (map Conversation.id (conversations (page m))) ->
  NoDup (map Conversation.id (conversations (page (run es m)))).
Proof.
  revert m. induction es as [|e es IH]; intros m Hf H; simpl.
  - exact H.
  - destruct Hf as [Hf Hfs]. apply IH; [exact Hfs |].
    apply step_keeps_NoDup; assumption.
Qed.

(** X14: in a run from an empty store in which every new conversation
    receives an id that is not in use, the ids of the collection are
    pairwise distinct, and a send accepted there adds exactly one message
    to the collection, a user message with the text sent, at the end of
    the selected conversation. *)
Theorem accepted_send_adds_one_message
    (es : list Event) (clk : Clock) (messageText : string) (st' : State) (p : Pending) :
  fresh_run es start ->
  sendMessage clk messageText (page (run es start)) = (st', Some p) ->
  NoDup (map Conversation.id (conversations (page (run es start))))
  /\ messageCount (conversations st')
     = messageCount (conversations (page (run es start))) + 1
  /\ exists c c',
       currentConversation (page (run es start)) = Some c
       /\ currentConversation st' = Some c'
       /\ Conversation.messages c'
          = (Conversation.messages c ++ [userMessageOf clk messageText])%list.
Proof.
  intros Hf H.
  assert (Hnd : NoDup (map Conversation.id (conversations (page (run es start)))))
    by (apply run_keeps_NoDup; [exact Hf | constructor]).
  pose proof (@run_selection_valid None start es boot_absent) as Hv.
  pose proof H as H0. apply sendMessage_inv in H0.
  destruct H0 as [_ [cur [Hcur [_ [Hst' _]]]]].
  unfold selection_valid in Hv. rewrite Hcur in Hv.
  split; [exact Hnd |]. split.
  - subst st'. cbn [conversations setInputValue setConversations].
    rewrite messageCount_appendUser, (carriers_unique _ _ Hnd Hv). reflexivity.
  - unfold currentConversation. subst st'.
    cbn [conversations currentConversationId setInputValue setConversations setIsLoading].
    rewrite Hcur. rewrite find_map_same_id by (intro; apply appendUser_id).
    destruct (find _ (conversations (page (run es start)))) as [c|] eqn:Ef.
    + exists c. eexists. split; [reflexivity |]. split; [reflexivity |].
      apply find_some in Ef. destruct Ef as [_ Ef].
      unfold appendUser. rewrite Ef. reflexivity.
    + exfalso. apply in_map_iff in Hv. destruct Hv as [c [Hid Hin]].
      apply (find_none _ _ Ef) in Hin. rewrite Hid, String.eqb_refl in Hin.
      discriminate Hin.
Qed.

(** ** Alternation of the transcripts *)

Lemma alternates_snoc (l : list Message.t) (m : Message.t) :
  alternates l ->
  Message.sender m = (if Nat.even (List.length l) then user else agent) ->
  alternates (l ++ [m]).
Proof.
  intros Hl Hm k m' Hk.
  destruct (Nat.lt_ge_cases k (List.length l)) as [Hlt | Hge].
  - rewrite nth_error_app1 in Hk by exact Hlt. exact (Hl k m' Hk).
  - rewrite nth_error_app2 in Hk by exact Hge.
    destruct (k - List.length l) as [|d] eqn:Ed.
    + simpl in Hk. inversion Hk; subst m'.
      replace k with (List.length l) by lia. exact Hm.
    + destruct d; discriminate Hk.
Qed.

Lemma even_snoc (l : list Message.t) (m : Message.t) :
  Nat.even (List.length (l ++ [m])) = negb (Nat.even (List.length l)).
Proof.
  rewrite length_app. simpl. rewrite Nat.add_1_r, Nat.even_succ, <- Nat.negb_even.
  reflexivity.
Qed.

Lemma existsb_captured_absent (i : string) (ps : list Pending) :
  ~ In i (map captured_id ps) ->
  existsb (fun p => String.eqb i (captured_id p)) ps = false.
Proof.
  induction ps as [|p ps IH]; simpl; intro H; [reflexivity |].
  destruct (String.eqb i (captured_id p)) eqn:E; simpl.
  - apply String.eqb_eq in E. exfalso. apply H. left. symmetry. exact E.
  - apply IH. intro Hin. apply H. right. exact Hin.
Qed.

Lemma step_keeps_DialogueInv (e : Event) (m : Machine) :
  fresh e m ->
  match e with SendMessage _ _ => False | _ => True end ->
  DialogueInv m -> DialogueInv (step e m).
Proof.
  intros Hf He [Hnd [Hsf Hd]].
  split; [apply step_keeps_NoDup; assumption |].
  split; [apply step_keeps_single_flight; assumption |].
  destruct e as [clk | i | v | i | clk ev | clk t | n clk r]; cbn [step];
    try contradiction.
  - cbn [page inflight]. rewrite saveEffect_conversations.
    intros c [Hc | Hc]; [| exact (Hd c Hc)].
    subst c. simpl. split; [intros k m0 Hk; destruct k; discriminate Hk |].
    destruct Hf as [_ Hf]. rewrite (existsb_captured_absent _ _ Hf). reflexivity.
  - destruct (existsb _ _); exact Hd.
  - destruct (operable _ _); exact Hd.
  - cbn [page inflight]. rewrite saveEffect_conversations, deleteConversation_conversations.
    intros c Hc. apply filter_In in Hc. apply Hd. apply Hc.
  - destruct (dispatch clk ev (page m)) as [st' [p|]] eqn:E; cbn [started];
      [| exact Hd].
    destruct Hsf as [[_ Hi] | [Hb _]];
      [| destruct (busy_dispatch_starts_nothing _ _ _ Hb E)].
    apply dispatch_is_sendMessage in E. destruct E as [t E].
    apply sendMessage_inv in E. destruct E as [_ [cur [_ [_ [Hst' Hp]]]]].
    assert (Hcap : captured_id p = cur) by (subst p; reflexivity).
    cbn [page inflight]. rewrite saveEffect_conversations, Hi. subst st'.
    cbn [conversations setInputValue setConversations app existsb].
    rewrite Hi in Hd. intros c' Hc'. apply in_map_iff in Hc'.
    destruct Hc' as [c [Hc' Hin]]. subst c'.
    destruct (Hd c Hin) as [Ha Hev]. simpl in Hev.
    rewrite appendUser_id, Hcap, orb_false_r. unfold appendUser.
    destruct (String.eqb (Conversation.id c) cur); simpl.
    + split; [| rewrite even_snoc, Hev; reflexivity].
      apply alternates_snoc; [exact Ha |]. rewrite Hev. reflexivity.
    + split; assumption.
  - destruct (nth_error (inflight m) n) as [p|] eqn:E; [| exact Hd].
    destruct Hsf as [[_ Hi] | [_ [p0 Hi]]]; rewrite Hi in *;
      [destruct n; discriminate E |].
    destruct n as [|n]; [| destruct n; discriminate E].
    simpl in E. inversion E; subst p0.
    cbn [page inflight remove_nth]. rewrite saveEffect_conversations, resume_conversations.
    intros c' Hc'. apply in_map_iff in Hc'. destruct Hc' as [c [Hc' Hin]]. subst c'.
    destruct (Hd c Hin) as [Ha Hev]. simpl in Hev. rewrite orb_false_r in Hev.
    simpl. unfold appendFollowUp.
    destruct (String.eqb (Conversation.id c) (captured_id p)); simpl in *.
    + split; [| rewrite even_snoc, Hev; reflexivity].
      apply alternates_snoc; [exact Ha |]. rewrite Hev. apply followUp_sender.
    + split; assumption.
Qed.

(** X15: in a run from an empty store in which sendMessage is reached
    through the controls only and every new conversation receives an id
    that is not in use, every transcript alternates between user and
    agent messages, a user message first; the transcript of the
    conversation a pending send points at ends with the user message that
    awaits its answer, and every other transcript ends with an agent
    message or is empty. *)
Theorem transcripts_alternate (es : list Event) (c : Conversation.t) :
  fresh_run es start ->
  by_controls es ->
  In c (conversations (page (run es start))) ->
  alternates (Conversation.messages c)
  /\ Nat.even (List.length (Conversation.messages c))
     = negb (existsb (fun p => String.eqb (Conversation.id c) (captured_id p))
                     (inflight (run es start))).
Proof.
  intros Hf Hc.
  assert (H : DialogueInv (run es start)).
  { assert (H0 : DialogueInv start).
    { split; [constructor |]. split; [left; split; reflexivity |]. intros c0 []. }
    revert Hf H0. generalize start.
    induction Hc as [|e es He Hes IH]; intros m Hf H0; simpl.
    - exact H0.
    - destruct Hf as [Hf Hfs]. apply IH; [exact Hfs |].
      apply step_keeps_DialogueInv; assumption. }
  destruct H as [_ [_ Hd]]. apply Hd.
Qed.

(** ** More on the normalisation *)

Lemma or_truthy_r (a b : JSValue) :
  Js.truthy b = true -> Js.truthy (a || b)%js = true.
Proof.
  intro H. unfold Js.or. destruct (Js.truthy a) eqn:E; [exact E | exact H].
Qed.

(** X16: reading the body throws exactly when it is [null] or
    [undefined]; otherwise the normalised value is never an empty one
    (never absent, [null], [false], zero or the empty string), so the
    text of an answer is never empty. *)
Theorem normalize_never_empty (data : JSValue) :
  ((exists e, normalize data = Throw e) <-> data = JNull \/ data = JUndefined)
  /\ (forall v, normalize data = Ok v -> Js.truthy v = true)
  /\ (forall s, try_block (Body data) = Some (Answered s) -> s <> "").
Proof.
  assert (Hok : forall v, normalize data = Ok v -> Js.truthy v = true).
  { intros v. unfold normalize, bind.
    destruct (Js.get data "success") as [success | e]; [| discriminate].
    destruct (Js.truthy success).
    - destruct (Js.get data "response") as [response | e]; [| discriminate].
      destruct (Js.get data "raw_response") as [raw | e]; [| discriminate].
      intro H. inversion H. apply or_truthy_r. reflexivity.
    - destruct (Js.get data "raw_response") as [raw | e]; [| discriminate].
      intro H. inversion H. apply or_truthy_r. reflexivity. }
  split; [| split; [exact Hok |]].
  - split.
    + intros [e H]. destruct data; try (right; reflexivity); try (left; reflexivity);
        exfalso; unfold normalize, bind in H; simpl in H;
        first [ discriminate H
              | match type of H with
                | context [Js.truthy ?x] => destruct (Js.truthy x); discriminate H
                end ].
    + intros [H | H]; subst data; exists "TypeError"; reflexivity.
  - intros s. unfold try_block.
    destruct (normalize data) as [v | e] eqn:E; [| discriminate].
    specialize (Hok v eq_refl).
    destruct v; try discriminate. intro H. inversion H; subst.
    apply truthy_string. exact Hok.
Qed.

(** ** The search filter *)



(** X17: with an empty search text the sidebar lists the whole
    collection, in its order. *)
Theorem empty_search_lists_all (cs : list Conversation.t) :
  filteredConversations "" cs = cs.
Proof.
  unfold filteredConversations. induction cs as [|c cs IH]; [reflexivity |].
  cbn [filter toLowerCase].
  replace (includes (toLowerCase (Conversation.title c)) "") with true
    by (destruct (toLowerCase (Conversation.title c)); reflexivity).
  f_equal. exact IH.
Qed.


(** ** formatTime *)

(** X19: the label of a valid timestamp is decided by its age in
    milliseconds: "just now" below one minute, negative ages (timestamps
    ahead of the clock) included; whole minutes from 1 to 59 below one
    hour; whole hours from 1 to 23 below one day; whole days from 1 to 6
    below seven days; and the locale's date from seven days on. *)
Theorem formatTime_by_age (toLocaleDateString : Z -> string) (date_ms now_ms : Z) :
  let age := (now_ms - date_ms)%Z in
  let label := formatTime toLocaleDateString (ValidDate date_ms) now_ms in
  ((age < 60000)%Z -> label = "just now")
  /\ ((60000 <= age < 3600000)%Z ->
      label = JsString.of_Z (age / 60000) ++ "m ago"
      /\ (1 <= age / 60000 <= 59)%Z)
  /\ ((3600000 <= age < 86400000)%Z ->
      label = JsString.of_Z (age / 3600000) ++ "h ago"
      /\ (1 <= age / 3600000 <= 23)%Z)
  /\ ((86400000 <= age < 604800000)%Z ->
      label = JsString.of_Z (age / 86400000) ++ "d ago"
      /\ (1 <= age / 86400000 <= 6)%Z)
  /\ ((604800000 <= age)%Z -> label = toLocaleDateString date_ms).
Proof.
  cbv zeta. unfold formatTime.
  set (age := (now_ms - date_ms)%Z).
  assert (Hm := Z.div_mod age 60000 ltac:(lia)).
  assert (Hm' := Z.mod_pos_bound age 60000 ltac:(lia)).
  assert (Hh := Z.div_mod age 3600000 ltac:(lia)).
  assert (Hh' := Z.mod_pos_bound age 3600000 ltac:(lia)).
  assert (Hd := Z.div_mod age 86400000 ltac:(lia)).
  assert (Hd' := Z.mod_pos_bound age 86400000 ltac:(lia)).
  repeat split; intros;
    repeat match goal with
           | |- context [(?a <? ?b)%Z] =>
               destruct (Z.ltb_spec a b); try lia
           end;
    try reflexivity; lia.
Qed.

(** ** Start-up, the busy flag and the starter prompts *)


(** X21: nothing but the resumption of a pending send lowers the busy
    flag: once it is up, it is still up after any event that is not the
    settling of a pending send. *)
Theorem only_settling_lowers_flag (e : Event) (m : Machine) :
  (forall n clk r, e <> Settle n clk r) ->
  isLoading (page m) = true ->
  isLoading (page (step e m)) = true.
Proof.
  intros He Hb.
  destruct e as [clk | i | v | i | clk ev | clk t | n clk r]; cbn [step].
  - cbn [page]. rewrite saveEffect_isLoading. exact Hb.
  - destruct (existsb _ _); exact Hb.
  - destruct (operable _ _); exact Hb.
  - cbn [page]. rewrite saveEffect_isLoading, deleteConversation_isLoading. exact Hb.
  - destruct (dispatch clk ev (page m)) as [st' [p|]] eqn:E; cbn [started];
      [| exact Hb].
    destruct (busy_dispatch_starts_nothing _ _ _ Hb E).
  - destruct (sendMessage clk t (page m)) as [st' [p|]] eqn:E; cbn [started];
      [| exact Hb].
    cbn [page]. rewrite saveEffect_isLoading.
    exact (sendMessage_raises_flag _ _ _ E).
  - exfalso. exact (He n clk r eq_refl).
Qed.

Lemma starter_prompts_fit (idx : nat) :
  idx < List.length STARTER_PROMPTS ->
  JsString.slice0 50 (nth idx STARTER_PROMPTS "") = nth idx STARTER_PROMPTS "".
Proof.
  intro H. do 4 (destruct idx as [|idx]; [reflexivity |]).
  simpl in H. lia.
Qed.

(** X22: a click on a starter prompt that starts a send happens on a
    conversation without messages; afterwards that conversation holds the
    prompt as its only message and has the whole prompt as its title. *)
Theorem starter_prompt_becomes_title
    (clk : Clock) (idx : nat) (st st' : State) (p : Pending) :
  dispatch clk (ClickStarter idx) st = (st', Some p) ->
  exists c c',
    currentConversation st = Some c
    /\ Conversation.messages c = []
    /\ currentConversation st' = Some c'
    /\ Conversation.title c' = nth idx STARTER_PROMPTS ""
    /\ Conversation.messages c'
       = [userMessageOf clk (nth idx STARTER_PROMPTS "")]
    /\ message (request p) = nth idx STARTER_PROMPTS "".
Proof.
  unfold dispatch. destruct (operable (StarterPrompt idx) st) eqn:O; [| discriminate].
  intro H. unfold operable, rendered in O.
  apply andb_prop in O. destruct O as [O _].
  apply andb_prop in O. destruct O as [O Hidx]. apply Nat.ltb_lt in Hidx.
  apply andb_prop in O. destruct O as [_ O].
  destruct (currentConversation st) as [c|] eqn:Ec; [| discriminate O].
  apply Nat.eqb_eq in O. apply length_zero_iff_nil in O.
  apply sendMessage_inv in H. destruct H as [_ [cur [Hcur [_ [Hst' Hp]]]]].
  exists c. eexists. split; [reflexivity |]. split; [exact O |].
  assert (Hf : find (fun c0 => String.eqb (Conversation.id c0) cur) (conversations st)
               = Some c).
  { unfold currentConversation in Ec. rewrite Hcur in Ec. exact Ec. }
  assert (Hmsg : fullMessage (currentConversation st) (nth idx STARTER_PROMPTS "")
                 = nth idx STARTER_PROMPTS "").
  { unfold fullMessage. rewrite Ec, O. reflexivity. }
  subst st' p. unfold currentConversation.
  cbn [conversations currentConversationId setInputValue setConversations setIsLoading
       request message].
  rewrite Hcur, find_map_same_id by (intro; apply appendUser_id). rewrite Hf.
  cbn [option_map]. split; [reflexivity |].
  pose proof (find_some _ _ Hf) as [_ Hid]. unfold appendUser. rewrite Hid.
  cbn [Conversation.title Conversation.messages]. rewrite O. cbn [List.length Nat.eqb app].
  split; [apply starter_prompts_fit; exact Hidx |]. split; [reflexivity |].
  rewrite Ec in Hmsg. exact Hmsg.
Qed.

(** ** The further properties at the sample states *)

Lemma sample_gesture_accepted :
  dispatch t3 ClickSubmit st_typed = (st_three, Some pending_two).
Proof. vm_compute. reflexivity. Defined.

Lemma sample_collection : conversations (page (run es_two start)) = [c_two].
Proof. vm_compute. reflexivity. Defined.

Lemma sample_collection_controls : conversations (page (run es_controls start)) = [c_two].
Proof. vm_compute. reflexivity. Defined.

Lemma sample_fresh : fresh_run es_two start.
Proof. simpl. repeat split; intro H; exact H. Defined.

Lemma sample_fresh_controls : fresh_run es_controls start.
Proof. simpl. repeat split; intro H; exact H. Defined.

Lemma sample_by_controls : by_controls es_controls.
Proof. repeat constructor. Defined.

Lemma sendMessage_declines_iff_witness :
  blank "   " = true /\ snd (sendMessage t3 "   " st_two) = None.
Proof.
  split; [reflexivity |].
  exact (proj2 (proj1 (sendMessage_declines_iff t3 "   " st_two)) (or_introl eq_refl)).
Defined.

Lemma gesture_sends_input_or_prompt_witness :
  dispatch t3 ClickSubmit st_typed = (st_three, Some pending_two)
  /\ isLoading st_typed = false.
Proof.
  split; [exact sample_gesture_accepted |].
  exact (proj1 (@gesture_sends_input_or_prompt t3 ClickSubmit st_typed st_three
                  pending_two sample_gesture_accepted)).
Defined.

Lemma sample_absent_id : ~ In "17" (map Conversation.id (conversations st_two)).
Proof. simpl. intros [H | H]; [discriminate H | exact H]. Defined.

Lemma sample_selection_valid : selection_valid st_two.
Proof. simpl. left. reflexivity. Defined.

Lemma deleteConversation_absent_id_witness :
  ~ In "17" (map Conversation.id (conversations st_two))
  /\ selection_valid st_two
  /\ deleteConversation "17" st_two = st_two.
Proof.
  split; [exact sample_absent_id |]. split; [exact sample_selection_valid |].
  exact (deleteConversation_absent_id "17" st_two sample_absent_id
           sample_selection_valid).
Defined.

Lemma sample_unused_id :
  ~ In (JsString.of_Z (now t3)) (map Conversation.id (conversations st_two)).
Proof. simpl. intros [H | H]; [discriminate H | exact H]. Defined.

Lemma create_then_delete_witness :
  ~ In (JsString.of_Z (now t3)) (map Conversation.id (conversations st_two))
  /\ conversations (deleteConversation (JsString.of_Z (now t3))
                      (createNewConversation t3 st_two))
     = conversations st_two.
Proof.
  split; [exact sample_unused_id |].
  exact (proj1 (create_then_delete t3 st_two sample_unused_id)).
Defined.

Lemma selection_always_valid_witness :
  boot None = Ok start /\ selection_valid (page (run es_two start)).
Proof.
  split; [reflexivity |].
  exact (proj1 (@selection_always_valid None start es_two eq_refl)).
Defined.

Lemma sample_not_empty : conversations (page (run es_two start)) <> [].
Proof. rewrite sample_collection. discriminate. Defined.

Lemma storage_mirrors_collection_witness :
  boot None = Ok start
  /\ conversations (page (run es_two start)) <> []
  /\ localStorage (page (run es_two start))
     = Some (JSON_stringify (conversations (page (run es_two start)))).
Proof.
  split; [reflexivity |]. split; [exact sample_not_empty |].
  exact (@storage_mirrors_collection None start es_two eq_refl sample_not_empty).
Defined.

Lemma reload_restores_collection_witness :
  boot None = Ok start
  /\ exists m', boot (localStorage (page (run es_two start))) = Ok m'.
Proof.
  split; [reflexivity |].
  exact (proj1 (@reload_restores_collection None start es_two eq_refl)).
Defined.

Lemma last_delete_undone_by_reload_witness :
  boot None = Ok start
  /\ conversations (page (run es_two start)) = [c_two]
  /\ conversations
       (page (step (DeleteConversation (Conversation.id c_two)) (run es_two start)))
     = [].
Proof.
  split; [reflexivity |]. split; [exact sample_collection |].
  exact (proj1 (@last_delete_undone_by_reload None start es_two c_two eq_refl
                  sample_collection)).
Defined.

Lemma sample_member_after_send :
  In (appendUser "1700000000000" (userMessageOf t3 "And now?") "And now?" c_two)
     (conversations (page (step (SendMessage t3 "And now?") (run es_two start)))).
Proof. vm_compute. left. reflexivity. Defined.

Lemma transcripts_append_only_witness :
  In (appendUser "1700000000000" (userMessageOf t3 "And now?") "And now?" c_two)
     (conversations (page (step (SendMessage t3 "And now?") (run es_two start))))
  /\ ((exists clk, SendMessage t3 "And now?" = NewChat clk
                   /\ Conversation.messages
                        (appendUser "1700000000000" (userMessageOf t3 "And now?")
                           "And now?" c_two) = []
                   /\ Conversation.id
                        (appendUser "1700000000000" (userMessageOf t3 "And now?")
                           "And now?" c_two) = JsString.of_Z (now clk))
      \/ (exists c suffix,
            In c (conversations (page (run es_two start)))
            /\ Conversation.id
                 (appendUser "1700000000000" (userMessageOf t3 "And now?")
                    "And now?" c_two) = Conversation.id c
            /\ Conversation.createdAt
                 (appendUser "1700000000000" (userMessageOf t3 "And now?")
                    "And now?" c_two) = Conversation.createdAt c
            /\ Conversation.messages
                 (appendUser "1700000000000" (userMessageOf t3 "And now?")
                    "And now?" c_two)
               = (Conversation.messages c ++ suffix)%list
            /\ List.length suffix <= 1)).
Proof.
  split; [exact sample_member_after_send |].
  exact (@transcripts_append_only (SendMessage t3 "And now?") (run es_two start) _
           sample_member_after_send).
Defined.

Lemma sample_member : In c_two (conversations (page (run es_two start))).
Proof. rewrite sample_collection. left. reflexivity. Defined.

Lemma titles_at_most_50_witness :
  In c_two (conversations (page (run es_two start)))
  /\ String.length (Conversation.title c_two) <= 50.
Proof.
  split; [exact sample_member |].
  exact (@titles_at_most_50 es_two c_two sample_member).
Defined.

Lemma user_messages_not_blank_witness :
  In c_two (conversations (page (run es_two start)))
  /\ blank "Hi" = false.
Proof.
  split; [exact sample_member |].
  exact (@user_messages_not_blank es_two c_two
           {| Message.id := "1700000004000"; Message.text := "Hi";
              Message.sender := user; Message.timestamp := iso t1 |}
           sample_member (or_introl eq_refl) eq_refl).
Defined.

Lemma one_send_in_flight_witness :
  boot None = Ok start
  /\ by_controls es_controls
  /\ List.length (inflight (run es_controls start)) <= 1.
Proof.
  split; [reflexivity |]. split; [exact sample_by_controls |].
  exact (proj1 (@one_send_in_flight None start es_controls eq_refl sample_by_controls)).
Defined.

Lemma accepted_send_adds_one_message_witness :
  fresh_run es_two start
  /\ sendMessage t3 "And now?" (page (run es_two start)) = (st_three, Some pending_two)
  /\ messageCount (conversations st_three)
     = messageCount (conversations (page (run es_two start))) + 1.
Proof.
  split; [exact sample_fresh |]. split; [exact sample_send_accepted |].
  exact (proj1 (proj2 (@accepted_send_adds_one_message es_two t3 "And now?" st_three
                         pending_two sample_fresh sample_send_accepted))).
Defined.

Lemma sample_member_controls : In c_two (conversations (page (run es_controls start))).
Proof. rewrite sample_collection_controls. left. reflexivity. Defined.

Lemma transcripts_alternate_witness :
  fresh_run es_controls start
  /\ by_controls es_controls
  /\ In c_two (conversations (page (run es_controls start)))
  /\ alternates (Conversation.messages c_two).
Proof.
  split; [exact sample_fresh_controls |]. split; [exact sample_by_controls |].
  split; [exact sample_member_controls |].
  exact (proj1 (@transcripts_alternate es_controls c_two sample_fresh_controls
                  sample_by_controls sample_member_controls)).
Defined.

Lemma normalize_never_empty_witness :
  try_block (Body (JObj [("success", JBool true); ("response", JStr "Hello!")]))
  = Some (Answered "Hello!")
  /\ "Hello!" <> "".
Proof.
  split; [reflexivity |].
  exact (proj2 (proj2 (normalize_never_empty
                         (JObj [("success", JBool true); ("response", JStr "Hello!")])))
           "Hello!" eq_refl).
Defined.


Lemma formatTime_by_age_witness :
  (60000 <= now t1 + 300000 - now t1 < 3600000)%Z
  /\ formatTime (fun _ => "14/11/2023") (ValidDate (now t1)) (now t1 + 300000)
     = "5m ago".
Proof.
  assert (H : (60000 <= now t1 + 300000 - now t1 < 3600000)%Z) by (simpl; lia).
  split; [exact H |].
  exact (proj1 (proj1 (proj2 (formatTime_by_age (fun _ => "14/11/2023")
                                (now t1) (now t1 + 300000))) H)).
Defined.



Lemma sample_not_settle : forall n clk r, SelectConversation "1700000000000" <> Settle n clk r.
Proof. intros n clk r H. discriminate H. Defined.

Lemma only_settling_lowers_flag_witness :
  isLoading (page m_busy) = true
  /\ isLoading (page (step (SelectConversation "1700000000000") m_busy)) = true.
Proof.
  assert (H : isLoading (page m_busy) = true) by (vm_compute; reflexivity).
  split; [exact H |].
  exact (@only_settling_lowers_flag (SelectConversation "1700000000000") m_busy
           sample_not_settle H).
Defined.

Lemma sample_starter_accepted :
  dispatch t1 (ClickStarter 0) st_one
  = (fst (dispatch t1 (ClickStarter 0) st_one), Some pending_starter).
Proof. vm_compute. reflexivity. Defined.

Lemma starter_prompt_becomes_title_witness :
  dispatch t1 (ClickStarter 0) st_one
  = (fst (dispatch t1 (ClickStarter 0) st_one), Some pending_starter)
  /\ exists c c',
       currentConversation st_one = Some c
       /\ Conversation.messages c = []
       /\ currentConversation (fst (dispatch t1 (ClickStarter 0) st_one)) = Some c'
       /\ Conversation.title c' = nth 0 STARTER_PROMPTS ""
       /\ Conversation.messages c' = [userMessageOf t1 (nth 0 STARTER_PROMPTS "")]
       /\ message (request pending_starter) = nth 0 STARTER_PROMPTS "".
Proof.
  split; [exact sample_starter_accepted |].
  exact (@starter_prompt_becomes_title t1 0 st_one _ pending_starter
           sample_starter_accepted).
Defined.
